(** * Battery monitor: the INA226 publisher and the plotting subscriber

    A shallow embedding of
      raspberrypi/scripts/publisher_voltage_and_current_sensor.py
      raspberrypi/scripts/subscriber_voltage_and_current_sensor.py

    Python's [float] is IEEE 754 binary64.  The model is written once over
    an interface [PyFloat] of the float operations the scripts use, and read
    at two instances: [float] (Rocq's primitive binary64 numbers, the
    arithmetic the scripts really run on) and [Q] (the same expressions in
    exact arithmetic, for the algebraic identities that rounding breaks).
    Python's [str] is modelled by [string], one character per code point
    below 256. *)

From Stdlib Require Import ZArith QArith Qabs Qround Floats.
From Stdlib Require Import List String Ascii Bool Lia Lqa DecimalString.
From Stdlib Require Import DecimalN DecimalPos.
Import ListNotations.

#[local] Set Warnings "-inexact-float".
#[local] Close Scope Q_scope.
#[local] Open Scope string_scope.

(** ** Python floats *)

(** What a float denotes: not-a-number, an infinity, or a signed finite
    magnitude ([mag] is non-negative; the sign is kept apart so that the
    negative zero is a value). *)
Inductive fview : Type :=
| VNan
| VInf (neg : bool)
| VFin (neg : bool) (mag : Q).

(** The operations of Python's [float] that the two scripts use.  [unview]
    yields the float nearest to a denotation (ties to even): it is how a
    decimal literal and [float(text)] get their value. *)
Class PyFloat (F : Type) : Type := {
  view   : F -> fview;
  unview : fview -> F;
  fadd   : F -> F -> F;
  fsub   : F -> F -> F;
  fmul   : F -> F -> F;
  fdiv   : F -> F -> F;
  flt    : F -> F -> bool;
  fle    : F -> F -> bool;
  fabs   : F -> F
}.

Declare Scope pyfloat_scope.
Delimit Scope pyfloat_scope with py.
Infix "+" := fadd : pyfloat_scope.
Infix "-" := fsub : pyfloat_scope.
Infix "*" := fmul : pyfloat_scope.
Infix "/" := fdiv : pyfloat_scope.
Infix "<?" := flt : pyfloat_scope.
Infix "<=?" := fle : pyfloat_scope.

(** *** binary64 *)

Definition b64_view (x : float) : fview :=
  match Prim2SF x with
  | S754_nan => VNan
  | S754_infinity s => VInf s
  | S754_zero s => VFin s 0
  | S754_finite s m e =>
      VFin s (match e with
              | Zneg p => Zpos m # (2 ^ p)
              | _ => inject_Z (Zpos m * 2 ^ e)
              end)
  end.

Definition b64_unview (v : fview) : float :=
  match v with
  | VNan => PrimFloat.nan
  | VInf s => if s then PrimFloat.neg_infinity else PrimFloat.infinity
  | VFin s q =>
      match Qnum q with
      | Z0 => if s then PrimFloat.neg_zero else PrimFloat.zero
      | Zpos n =>
          SF2Prim (SFdiv prec emax (S754_finite s n 0)
                                   (S754_finite false (Qden q) 0))
      | Zneg n =>
          SF2Prim (SFdiv prec emax (S754_finite (negb s) n 0)
                                   (S754_finite false (Qden q) 0))
      end
  end.

#[export] Instance PyFloat_b64 : PyFloat float := {
  view := b64_view;
  unview := b64_unview;
  fadd := PrimFloat.add;
  fsub := PrimFloat.sub;
  fmul := PrimFloat.mul;
  fdiv := PrimFloat.div;
  flt := PrimFloat.ltb;
  fle := PrimFloat.leb;
  fabs := PrimFloat.abs
}.

(** *** exact arithmetic *)

Definition Q_view (q : Q) : fview := VFin (Qnum q <? 0)%Z (Qabs q).

Definition Q_unview (v : fview) : Q :=
  match v with
  | VFin s q => if s then Qopp q else q
  | _ => 0
  end.

#[export] Instance PyFloat_Q : PyFloat Q := {
  view := Q_view;
  unview := Q_unview;
  fadd := Qplus;
  fsub := Qminus;
  fmul := Qmult;
  fdiv := Qdiv;
  flt := fun x y => negb (Qle_bool y x);
  fle := Qle_bool;
  fabs := Qabs
}.

(** ** Python built-ins on floats and text *)

Inductive exn : Type :=
| ValueError
| OverflowError
| ZeroDivisionError.

(** A computation that returns a value or raises. *)
Definition bind {A B : Type} (c : exn + A) (k : A -> exn + B) : exn + B :=
  match c with
  | inl e => inl e
  | inr a => k a
  end.

Notation "x <- c ;; k" := (bind c (fun x => k))
  (at level 61, c at next level, right associativity).

Section Builtins.
Context {F : Type} `{PyFloat F}.

(** A decimal literal of the source, or an [int] operand promoted to
    [float]. *)
Definition lit (q : Q) : F := unview (VFin (Qnum q <? 0)%Z (Qabs q)).

Definition fnan : F := unview VNan.

(** [int(x)]: truncation toward zero. *)
Definition py_int (x : F) : exn + Z :=
  match view x with
  | VNan => inl ValueError
  | VInf _ => inl OverflowError
  | VFin s q => inr (if s then (- Qfloor q)%Z else Qfloor q)
  end.

(** C's [fmod], for a divisor that is not zero: the exact remainder, with
    the sign of the dividend. *)
Definition c_fmod (x y : F) : F :=
  match view x, view y with
  | VFin sx qx, VFin _ qy =>
      unview (VFin sx (qx - inject_Z (Qfloor (qx / qy)) * qy)%Q)
  | VFin _ _, VInf _ => x
  | _, _ => fnan
  end.

Definition view_is_zero (v : fview) : bool :=
  match v with
  | VFin _ q => Qeq_bool q 0
  | _ => false
  end.

Definition view_is_neg (v : fview) : bool :=
  match v with
  | VFin s q => s && negb (Qeq_bool q 0)
  | VInf s => s
  | VNan => false
  end.

Definition view_sign (v : fview) : bool :=
  match v with
  | VFin s _ => s
  | VInf s => s
  | VNan => false
  end.

(** [x % y] on floats (CPython's [float_rem]). *)
Definition py_mod (x y : F) : exn + F :=
  if view_is_zero (view y) then inl ZeroDivisionError
  else
    let m := c_fmod x y in
    inr (if view_is_zero (view m)
         then unview (VFin (view_sign (view y)) 0)
         else if xorb (view_is_neg (view y)) (view_is_neg (view m))
              then (m + y)%py
              else m).

(** Rounding of a non-negative rational to the nearest integer, ties to
    even. *)
Definition round_half_even (q : Q) : Z :=
  let f := Qfloor q in
  match Qcompare (q - inject_Z f) (1 # 2) with
  | Lt => f
  | Gt => (f + 1)%Z
  | Eq => if Z.even f then f else (f + 1)%Z
  end.

Definition digits_of_N (n : N) : list ascii :=
  list_ascii_of_string (NilZero.string_of_uint (N.to_uint n)).

(** [str(n)] for an [int]. *)
Definition py_str_int (n : Z) : string :=
  match n with
  | Zneg p => String "-" (string_of_list_ascii (digits_of_N (Npos p)))
  | _ => string_of_list_ascii (digits_of_N (Z.to_N n))
  end.

(** The digits of [n] with the decimal point [d] places from the right,
    zero-padded so that at least one digit stands before the point. *)
Definition fixed_digits (d : nat) (n : Z) : list ascii :=
  let ds := digits_of_N (Z.to_N n) in
  let ds := (repeat "0"%char (S d - List.length ds) ++ ds)%list in
  let k := (List.length ds - d)%nat in
  match d with
  | O => ds
  | S _ => (firstn k ds ++ "."%char :: skipn k ds)%list
  end.

(** [format(x, '.df')], the [{x:.df}] of an f-string. *)
Definition format_f (d : nat) (x : F) : string :=
  match view x with
  | VNan => "nan"
  | VInf s => if s then "-inf" else "inf"
  | VFin s q =>
      let body := fixed_digits d (round_half_even (q * inject_Z (10 ^ Z.of_nat d))) in
      string_of_list_ascii (if s then "-"%char :: body else body)
  end.

(** The characters [format_f] can produce. *)
Definition format_alphabet : list ascii :=
  list_ascii_of_string "0123456789.-infa".

Definition is_digit (c : ascii) : bool :=
  let n := nat_of_ascii c in (48 <=? n)%nat && (n <=? 57)%nat.

Definition digit_value (c : ascii) : Z := Z.of_nat (nat_of_ascii c - 48).

(** The digits and dots of a text matched by [[\d.]+], read left to right:
    the integer spelled by the digits seen so far, the number of digits after
    the dot, and whether a dot was seen.  A second dot is an error. *)
Fixpoint scan_decimal (s : list ascii) (num : Z) (frac : Z) (dot : bool)
                      (seen : bool) : option (Z * Z * bool) :=
  match s with
  | [] => Some (num, frac, seen)
  | c :: s' =>
      if is_digit c then
        scan_decimal s' (10 * num + digit_value c)%Z
                     (if dot then frac + 1 else frac)%Z dot true
      else if Ascii.eqb c "."%char then
        if dot then None else scan_decimal s' num frac true seen
      else None
  end.

(** [float(text)] on a text of digits and dots, the only texts the
    subscriber passes to it: at most one dot and at least one digit, or
    [ValueError]. *)
Definition py_float (s : string) : exn + F :=
  match scan_decimal (list_ascii_of_string s) 0 0 false false with
  | Some (num, frac, true) =>
      inr (unview (VFin false (num # Z.to_pos (10 ^ frac))))
  | _ => inl ValueError
  end.

End Builtins.

(** ** The publisher: publisher_voltage_and_current_sensor.py *)

Definition INA226_I2C_ADDR : Z := 0x40.
Definition REG_CONFIG : Z := 0x00.
Definition REG_SHUNT_VOLTAGE : Z := 0x01.
Definition REG_BUS_VOLTAGE : Z := 0x02.
Definition RESET_COMMAND : Z := 0x8000.

Definition STABLE_THRESHOLD : nat := 3.
Definition FAILURE_THRESHOLD : nat := 3.
Definition VALID_READ_COUNT_FOR_RECONNECT : nat := 2.

(** The two bytes [write_register] sends, and the value [read_register]
    assembles from the two bytes it receives (high byte first). *)
Definition write_register_data (value : Z) : list Z :=
  [Z.land (Z.shiftr value 8) 0xFF; Z.land value 0xFF].

Definition read_register (data0 data1 : Z) : Z :=
  Z.lor (Z.shiftl data0 8) data1.

(** What the worker threads, the sensor and the console are asked to do
    during a cycle, in program order.  [Reset] and [Configure] stand for the
    calls of [reset_ina226] and [configure_ina226], each with its register
    write, its settle delay and its own line on the console; a failure of
    the write is caught inside and does not reach the loop. *)
Inductive call : Type :=
| ReadVoltage                (* safe_read_voltage() *)
| ReadCurrent                (* safe_read_current() *)
| ProbePresent               (* is_sensor_present() *)
| Reset                      (* reset_ina226() *)
| Configure                  (* configure_ina226() *)
| Sleep (ms : nat)           (* time.sleep *)
| Print (text : string)
| Send (text : string).      (* socket.send_string *)

Section Publisher.
Context {F : Type} `{PyFloat F}.
#[local] Open Scope pyfloat_scope.

Definition SHUNT_RESISTOR : F := lit (1 # 10).
Definition SHUNT_LSB : F := lit (25 # 10000000).
Definition TOLERANCE : F := lit (1 # 1000).

(** [measure_bus_voltage] and [measure_shunt_current]; the argument is the
    register value read, or [None] when the read raised. *)
Definition measure_bus_voltage (raw : option Z) : option F :=
  match raw with
  | None => None
  | Some raw =>
      let voltage_mV := lit (inject_Z raw) * lit (125 # 100) in
      let voltage_V := voltage_mV / lit 1000 in
      Some voltage_V
  end.

Definition measure_shunt_current (raw : option Z) : option F :=
  match raw with
  | None => None
  | Some raw =>
      let raw := if (0x7FFF <? raw)%Z then (raw - 0x10000)%Z else raw in
      let shunt_voltage_V := lit (inject_Z raw) * SHUNT_LSB in
      let current_A := shunt_voltage_V / SHUNT_RESISTOR in
      Some current_A
  end.

Definition min_v : F := lit (148 # 10).
Definition max_v : F := lit (1685 # 100).

Definition estimate_soc (voltage : option F) : F :=
  match voltage with
  | None => lit 0
  | Some voltage =>
      if voltage <=? min_v then lit 0
      else if max_v <=? voltage then lit 100
      else (voltage - min_v) / (max_v - min_v) * lit 100
  end.

(** The variables of the main loop. *)
Record monitor : Type := {
  sensor_connected : bool;
  consecutive_failures : nat;
  valid_read_count : nat;
  last_voltage : option F;
  stable_count : nat
}.

Definition initial_monitor : monitor := {|
  sensor_connected := false;
  consecutive_failures := 0;
  valid_read_count := 0;
  last_voltage := None;
  stable_count := 0
|}.

(** What the environment answers during one cycle: the two reads at the top
    of the loop, the presence probe (consulted only when the failure count
    has reached the threshold) and the two reads after a forced
    reinitialisation (consulted only when it happens). *)
Record readings : Type := {
  voltage : option F;
  current : option F;
  present : bool;
  voltage_again : option F;
  current_again : option F
}.

(** [voltage is None or voltage < 0.1] *)
Definition invalid_reading (voltage : option F) : bool :=
  match voltage with
  | None => true
  | Some v => v <? lit (1 # 10)
  end.

Definition publish_str (voltage_str current_str soc_str : string) : string :=
  "Voltage: " ++ voltage_str ++ ", Current: " ++ current_str
              ++ ", SoC: " ++ soc_str.

Definition publish (s : string) : list call :=
  [Print ("Publishing: " ++ s); Send s; Sleep 1000].

(** The branch of the loop body for an invalid reading. *)
Definition invalid_cycle (st : monitor) (r : readings) : monitor * list call :=
  let consecutive_failures := S (consecutive_failures st) in
  let disconnect :=
    if sensor_connected st then [Print "Battery Disconnected"] else [] in
  let threshold := (FAILURE_THRESHOLD <=? consecutive_failures)%nat in
  let reinit := threshold && present r in
  let recover :=
    ((if threshold then [ProbePresent] else []) ++
     (if reinit
      then [Print "Reinitializing sensor due to consecutive failures...";
            Reset; Configure; Sleep 500]
      else []))%list in
  ({| sensor_connected := false;
      consecutive_failures := if reinit then 0 else consecutive_failures;
      valid_read_count := 0;
      last_voltage := last_voltage st;
      stable_count := 0 |},
   disconnect ++ recover ++ publish (publish_str "Battery Disconnected" "N/A" "N/A"))%list.

(** The branch for a valid reading [v]. *)
Definition valid_cycle (st : monitor) (r : readings) (v : F) : monitor * list call :=
  let valid_read_count := S (valid_read_count st) in
  let soc_percentage := estimate_soc (Some v) in
  let voltage_str := format_f 3 v ++ " V" in
  let current_str :=
    match current r with
    | Some c => format_f 6 c ++ " A"
    | None => "N/A"
    end in
  let soc_str := format_f 1 soc_percentage ++ "%" in
  let stable_count :=
    match last_voltage st with
    | Some last => if fabs (v - last) <? TOLERANCE then S (stable_count st) else O
    | None => O
    end in
  let forced := (STABLE_THRESHOLD <=? stable_count)%nat in
  let reconnect :=
    negb (sensor_connected st)
    && (VALID_READ_COUNT_FOR_RECONNECT <=? valid_read_count)%nat in
  ({| sensor_connected := if reconnect then true else sensor_connected st;
      consecutive_failures := 0;
      valid_read_count := valid_read_count;
      last_voltage := if forced then voltage_again r else Some v;
      stable_count := if forced then 0 else stable_count |},
   (if forced
    then [Print "Forcing sensor reinitialization (unchanging voltage).";
          Reset; Configure; Sleep 250; ReadVoltage; ReadCurrent]
    else []) ++
   (if reconnect then [Print "Battery Reconnected"] else []) ++
   publish (publish_str voltage_str current_str soc_str))%list.

(** One iteration of [while True]. *)
Definition cycle (st : monitor) (r : readings) : monitor * list call :=
  let '(st', calls) :=
    match voltage r with
    | None => invalid_cycle st r
    | Some v => if v <? lit (1 # 10) then invalid_cycle st r else valid_cycle st r v
    end in
  (st', ReadVoltage :: ReadCurrent :: calls).

(** The loop, for as many iterations as there are answers: what each
    iteration leaves (the variables after it and what it called), and the
    variables after the last one. *)
Fixpoint run (st : monitor) (rs : list readings) : list (monitor * list call) :=
  match rs with
  | [] => []
  | r :: rs' => cycle st r :: run (fst (cycle st r)) rs'
  end.

Definition final (st : monitor) (rs : list readings) : monitor :=
  fold_left (fun st r => fst (cycle st r)) rs st.

(** The text sent in a cycle. *)
Definition sent (calls : list call) : list string :=
  flat_map (fun c => match c with Send s => [s] | _ => [] end) calls.

(** What a cycle asked of the sensor, in order. *)
Definition sensor_calls (calls : list call) : list call :=
  filter (fun c => match c with
                   | Sleep _ | Print _ | Send _ => false
                   | _ => true
                   end) calls.

(** The number of valid readings at the end of a sequence of readings. *)
Definition trailing_valid (rs : list readings) : nat :=
  fold_left (fun n r => if invalid_reading (voltage r) then O else S n) rs O.

(** A valid reading within [TOLERANCE] of the retained voltage. *)
Definition stable_reading (st : monitor) (r : readings) : bool :=
  match voltage r, last_voltage st with
  | Some v, Some last => negb (v <? lit (1 # 10)) && (fabs (v - last) <? TOLERANCE)
  | _, _ => false
  end.

(** Every reading of the sequence is stable against the voltage retained
    when it arrives. *)
Fixpoint stable_window (st : monitor) (rs : list readings) : bool :=
  match rs with
  | [] => true
  | r :: rs' => stable_reading st r && stable_window (fst (cycle st r)) rs'
  end.

(** The two wire formats of the specification. *)
Definition disconnected_message : string :=
  "Voltage: Battery Disconnected, Current: N/A, SoC: N/A".

Definition numeric_message (voltage current soc : F) : string :=
  "Voltage: " ++ format_f 3 voltage ++ " V, Current: " ++ format_f 6 current
              ++ " A, SoC: " ++ format_f 1 soc ++ "%".

Definition numeric_format (msg : string) : Prop :=
  exists voltage current soc : F, msg = numeric_message voltage current soc.

End Publisher.

(** ** The subscriber: subscriber_voltage_and_current_sensor.py *)

(** *** The regular expression of [handle_new_message] *)

(** [\s] and [[\d.]] on code points below 256. *)
Definition is_space (c : ascii) : bool :=
  let n := nat_of_ascii c in
  ((9 <=? n) && (n <=? 13) || (28 <=? n) && (n <=? 32)
   || (n =? 133) || (n =? 160))%nat.

Definition is_digit_or_dot (c : ascii) : bool :=
  is_digit c || Ascii.eqb c "."%char.

(** The pieces the pattern is made of: literal text, a greedy [c*] over a
    character class, and a capturing group [(c+)] over a character class. *)
Inductive re_item : Type :=
| Chars (text : string)
| Star (class : ascii -> bool)
| Group (class : ascii -> bool).

Fixpoint strip_prefix (t : list ascii) (s : list ascii) : option (list ascii) :=
  match t, s with
  | [], _ => Some s
  | a :: t', b :: s' => if Ascii.eqb a b then strip_prefix t' s' else None
  | _ :: _, [] => None
  end.

(** Greedy repetition with backtracking: the longest run first, then
    shorter ones, until the continuation [k] matches the rest. *)
Fixpoint match_star (p : ascii -> bool) (k : list ascii -> option (list string))
                    (s : list ascii) : option (list string) :=
  match s with
  | c :: s' =>
      if p c then
        match match_star p k s' with
        | Some groups => Some groups
        | None => k s
        end
      else k s
  | [] => k []
  end.

(** The same for a group of one or more characters; [taken] holds the
    characters of the group consumed so far, last first. *)
Fixpoint match_group (p : ascii -> bool) (k : list ascii -> option (list string))
                     (taken : list ascii) (s : list ascii) : option (list string) :=
  let stop :=
    match taken with
    | [] => None
    | _ :: _ =>
        match k s with
        | Some groups => Some (string_of_list_ascii (rev taken) :: groups)
        | None => None
        end
    end in
  match s with
  | c :: s' =>
      if p c then
        match match_group p k (c :: taken) s' with
        | Some groups => Some groups
        | None => stop
        end
      else stop
  | [] => stop
  end.

(** A match of the whole pattern starting at the head of the text: its
    groups, in order. *)
Fixpoint match_here (items : list re_item) : list ascii -> option (list string) :=
  match items with
  | [] => fun _ => Some []
  | Chars t :: rest =>
      fun s =>
        match strip_prefix (list_ascii_of_string t) s with
        | Some s' => match_here rest s'
        | None => None
        end
  | Star p :: rest => match_star p (match_here rest)
  | Group p :: rest => match_group p (match_here rest) []
  end.

(** [re.search]: the first position of the text where the pattern matches. *)
Fixpoint search_from (items : list re_item) (s : list ascii) : option (list string) :=
  match match_here items s with
  | Some groups => Some groups
  | None =>
      match s with
      | [] => None
      | _ :: s' => search_from items s'
      end
  end.

Definition re_search (items : list re_item) (msg : string) : option (list string) :=
  search_from items (list_ascii_of_string msg).

(** [Voltage:\s*([\d.]+)\s*V,\s*Current:\s*([\d.]+)\s*A,\s*SoC:\s*([\d.]+)%] *)
Definition message_pattern : list re_item :=
  [Chars "Voltage:"; Star is_space; Group is_digit_or_dot; Star is_space;
   Chars "V,"; Star is_space;
   Chars "Current:"; Star is_space; Group is_digit_or_dot; Star is_space;
   Chars "A,"; Star is_space;
   Chars "SoC:"; Star is_space; Group is_digit_or_dot; Chars "%"].

(** [l[-n:]] *)
Definition last_n {A : Type} (n : nat) (l : list A) : list A :=
  match n with
  | O => l
  | S _ => skipn (List.length l - n) l
  end.

Section Subscriber.
Context {F : Type} `{PyFloat F}.
#[local] Open Scope pyfloat_scope.

(** The attributes of [MainWindow] that the message handler reads and
    writes; [time_left_label] is the text of the label. *)
Record main_window : Type := {
  time_left_label : string;
  time_data : list F;
  voltage_data : list F;
  current_data : list F;
  soc_data : list F;
  max_points : nat;
  filtered_soc : option F;
  start_time : F;
  battery_capacity : F
}.

(** The window as [__init__] leaves it, created at time [now]. *)
Definition new_window (now : F) : main_window := {|
  time_left_label := "Time Left: --:--";
  time_data := [];
  voltage_data := [];
  current_data := [];
  soc_data := [];
  max_points := 300;
  filtered_soc := None;
  start_time := now;
  battery_capacity := lit 10
|}.

Definition set_time_left (w : main_window) (text : string) : main_window := {|
  time_left_label := text;
  time_data := time_data w;
  voltage_data := voltage_data w;
  current_data := current_data w;
  soc_data := soc_data w;
  max_points := max_points w;
  filtered_soc := filtered_soc w;
  start_time := start_time w;
  battery_capacity := battery_capacity w
|}.

(** [hours_left] of [update_time_left]. *)
Definition hours_left (capacity soc_percent current_amp : F) : F :=
  (capacity * (soc_percent / lit 100)) / current_amp.

(** The text [update_time_left] shows for a projection of [h] hours, or the
    exception one of its two [int(...)] conversions raises. *)
Definition time_left_text (h : F) : exn + string :=
  total_minutes <- py_int (h * lit 60) ;;
  remainder <- py_mod (h * lit 3600) (lit 60) ;;
  seconds <- py_int remainder ;;
  if (total_minutes <? 60)%Z then
    inr ("Time Left: " ++ py_str_int total_minutes ++ " min "
                       ++ py_str_int seconds ++ " s")
  else
    let hrs := (total_minutes / 60)%Z in
    let mins := (total_minutes mod 60)%Z in
    inr ("Time Left: " ++ py_str_int hrs ++ " h "
                       ++ py_str_int mins ++ " min "
                       ++ py_str_int seconds ++ " s").

(** [update_time_left]: the window afterwards, and the exception if one was
    raised (the label is then left as it was). *)
Definition update_time_left (w : main_window) (soc_percent current_amp : F)
  : main_window * option exn :=
  if (current_amp <? lit (1 # 100)) || (soc_percent <? lit 1) then
    (set_time_left w "Time Left: N/A", None)
  else
    match time_left_text (hours_left (battery_capacity w) soc_percent current_amp) with
    | inl e => (w, Some e)
    | inr text => (set_time_left w text, None)
    end.

Definition alpha : F := lit (2 # 10).

(** The smoothing step of [handle_new_message]: the new [filtered_soc]. *)
Definition smooth (filtered_soc : option F) (soc_val : F) : F :=
  match filtered_soc with
  | None => soc_val
  | Some previous => alpha * soc_val + (lit 1 - alpha) * previous
  end.

(** The three numbers of a matched message, or [None] where a [float(...)]
    raised [ValueError] (the handler returns) or nothing matched. *)
Definition parse_message (msg : string) : option (F * F * F) :=
  match re_search message_pattern msg with
  | Some [g1; g2; g3] =>
      match py_float g1, py_float g2, py_float g3 with
      | inr voltage_val, inr current_val, inr soc_val =>
          Some (voltage_val, current_val, soc_val)
      | _, _, _ => None
      end
  | _ => None
  end.

(** The body of [handle_new_message] once the message is parsed; [now] is
    what [time.time()] returns. *)
Definition record_sample (w : main_window) (now : F)
                         (voltage_val current_val soc_val : F)
  : main_window * option exn :=
  let elapsed_time := now - start_time w in
  let time_data := (time_data w ++ [elapsed_time])%list in
  let voltage_data := (voltage_data w ++ [voltage_val])%list in
  let current_data := (current_data w ++ [current_val])%list in
  let filtered := smooth (filtered_soc w) soc_val in
  let soc_data := (soc_data w ++ [filtered])%list in
  let over := (max_points w <? List.length time_data)%nat in
  let keep {A} (l : list A) := if over then last_n (max_points w) l else l in
  update_time_left
    {| time_left_label := time_left_label w;
       time_data := keep time_data;
       voltage_data := keep voltage_data;
       current_data := keep current_data;
       soc_data := keep soc_data;
       max_points := max_points w;
       filtered_soc := Some filtered;
       start_time := start_time w;
       battery_capacity := battery_capacity w |}
    filtered current_val.

Definition handle_new_message (w : main_window) (now : F) (msg : string)
  : main_window * option exn :=
  match parse_message msg with
  | Some (voltage_val, current_val, soc_val) =>
      record_sample w now voltage_val current_val soc_val
  | None => (w, None)
  end.

(** The four histories have one length, at most [max_points] = 300. *)
Definition window_bounded (w : main_window) : Prop :=
  max_points w = 300%nat /\
  (List.length (time_data w) <= 300)%nat /\
  List.length (voltage_data w) = List.length (time_data w) /\
  List.length (current_data w) = List.length (time_data w) /\
  List.length (soc_data w) = List.length (time_data w).

(** [filtered_soc] after the seed [f0] and [n] further samples that all
    carry the value [x]. *)
Fixpoint smooth_constant (f0 x : F) (n : nat) : F :=
  match n with
  | O => f0
  | S n' => smooth (Some (smooth_constant f0 x n')) x
  end.

(** [b ** n] for a natural [n], by repeated multiplication. *)
Fixpoint fpow (b : F) (n : nat) : F :=
  match n with
  | O => lit 1
  | S n' => b * fpow b n'
  end.

(** The window after a sequence of messages, each with its arrival time.
    The fold goes on after a message whose handling raised; the windows of
    a run that ends at the exception are those of the shorter sequences. *)
Fixpoint receive (w : main_window) (msgs : list (F * string)) : main_window :=
  match msgs with
  | [] => w
  | (now, msg) :: rest => receive (fst (handle_new_message w now msg)) rest
  end.

End Subscriber.

(** ** Concrete runs, in binary64 *)

(** A connected monitor one stable cycle short of the stale-lock
    threshold, and a cycle that reads the retained voltage again and, after
    the forced reinitialisation, reads something else. *)
Definition stale_monitor : monitor := {|
  sensor_connected := true;
  consecutive_failures := 0;
  valid_read_count := 5;
  last_voltage := Some 15.0%float;
  stable_count := 2
|}.

Definition stale_readings : readings := {|
  voltage := Some 15.0%float;
  current := Some 0.5%float;
  present := true;
  voltage_again := Some 16.0%float;
  current_again := Some 0.7%float
|}.

(** A cycle whose bus-voltage read succeeds and whose shunt read fails. *)
Definition readings_without_current : readings := {|
  voltage := Some 15.0%float;
  current := None;
  present := true;
  voltage_again := None;
  current_again := None
|}.

(** A cycle whose reads both fail while the chip still answers. *)
Definition failed_readings : readings (F := float) := {|
  voltage := None;
  current := None;
  present := true;
  voltage_again := None;
  current_again := None
|}.

(** A steady 15 V. *)
Definition steady_readings : readings := {|
  voltage := Some 15.0%float;
  current := Some 0.5%float;
  present := true;
  voltage_again := Some 15.0%float;
  current_again := Some 0.5%float
|}.

(** ** The driver's voltages, in binary64 *)

(** [measure_bus_voltage] and [estimate_soc] at binary64 with their
    constants evaluated ([measure_bus_voltage_b64] and [estimate_soc_b64]
    below show that they are the same functions). *)
Definition b64_bus_voltage (raw : Z) : float :=
  (lit (inject_Z raw) * 1.25 / 1000)%float.

Definition b64_soc (v : float) : float :=
  (if v <=? 14.8 then 0
   else if 16.85 <=? v then 100
   else (v - 14.8) / (16.85 - 14.8) * 100)%float.

(** [step (V k) (V (k + 1))] for the [n] values of [k] below [z], where
    [next] is [V z]. *)
Fixpoint chain_below (step : float -> float -> bool) (V : Z -> float)
                     (n : nat) (z : Z) (next : float) : bool :=
  match n with
  | O => true
  | S k =>
      let v := V (z - 1)%Z in
      step v next && chain_below step V k (z - 1)%Z v
  end.

(** From one register value to the next the voltage grows, the state of
    charge does not shrink, and both states of charge lie in [0, 100]. *)
Definition driver_step (v v' : float) : bool :=
  ((v <? v') && (b64_soc v <=? b64_soc v')
   && (0 <=? b64_soc v) && (b64_soc v <=? 100)
   && (0 <=? b64_soc v') && (b64_soc v' <=? 100))%float.

(** [measure_shunt_current] at binary64 with its constants evaluated
    ([measure_shunt_current_b64] below shows that it is the same
    function). *)
Definition b64_shunt_current (raw : Z) : float :=
  (lit (inject_Z (if (0x7FFF <? raw)%Z then (raw - 0x10000)%Z else raw))
   * 2.5e-6 / 0.1)%float.

(** From one register value to the next the current grows; on the lower
    half of the register values it is not negative, on the upper half it is
    negative. *)
Definition shunt_step_low (c c' : float) : bool :=
  ((c <? c') && (0 <=? c) && (0 <=? c') && (c' <=? 0.8192))%float.

Definition shunt_step_high (c c' : float) : bool :=
  ((c <? c') && (c <? 0) && (c' <? 0) && (-0.8193 <=? c))%float.

(** ** Vocabulary of the further properties *)

(** The time a cycle spends in [time.sleep], in milliseconds, and the lines
    it prints. *)
Definition slept (calls : list call) : nat :=
  list_sum (flat_map (fun c => match c with Sleep ms => [ms] | _ => [] end) calls).

Definition printed (calls : list call) : list string :=
  flat_map (fun c => match c with Print s => [s] | _ => [] end) calls.

(** The answers of a sensor that keeps returning the same voltage [v], at
    the top of the loop and after a reinitialisation alike. *)
Definition steady {F : Type} (v : F) (c : option F) : readings := {|
  voltage := Some v;
  current := c;
  present := true;
  voltage_again := Some v;
  current_again := c
|}.

(** What holds of the variables of the loop after every cycle. *)
Definition monitor_invariant {F : Type} (st : @monitor F) : Prop :=
  stable_count st < STABLE_THRESHOLD
  /\ (consecutive_failures st = 0 \/ valid_read_count st = 0)
  /\ (sensor_connected st = true ->
      consecutive_failures st = 0
      /\ VALID_READ_COUNT_FOR_RECONNECT <= valid_read_count st)
  /\ stable_count st <= valid_read_count st
  /\ (0 < stable_count st -> last_voltage st <> None).

(** ** Vocabulary of the text and history properties *)

(** The integer that the digits [l] spell after the digits of [acc]. *)
Definition digits_value (l : list ascii) (acc : Z) : Z :=
  fold_left (fun a c => (10 * a + digit_value c)%Z) l acc.

(** The float nearest to [x] rounded to [d] decimals, for an [x] that is
    finite with a clear sign bit: what [float] makes of the text that
    [format] writes for [x]. *)
Definition published_value {F : Type} `{PyFloat F} (d : nat) (x : F) : option F :=
  match view x with
  | VFin false q =>
      if Qle_bool 0 q then
        Some (unview (VFin false
                (round_half_even (q * inject_Z (10 ^ Z.of_nat d))
                 # Z.to_pos (10 ^ Z.of_nat d))))
      else None
  | _ => None
  end.

(** The text is empty or starts with a character outside the class [p]. *)
Definition head_fails (p : ascii -> bool) (s : list ascii) : Prop :=
  match s with
  | [] => True
  | c :: _ => p c = false
  end.

(** The text of a message whose three numbers are [a], [b] and [c]. *)
Definition message_chars (a b c : list ascii) : list ascii :=
  (list_ascii_of_string "Voltage:" ++ " "%char :: a ++ " "%char :: list_ascii_of_string "V," ++
   " "%char :: list_ascii_of_string "Current:" ++ " "%char :: b ++ " "%char :: list_ascii_of_string "A," ++
   " "%char :: list_ascii_of_string "SoC:" ++ " "%char :: c ++ list_ascii_of_string "%")%list.

(** [x] is finite and its sign bit is clear: [format] writes such an [x]
    with digits and one dot, and any other float with a first character
    that is neither. *)
Definition sign_clear_finite {F : Type} `{PyFloat F} (x : F) : bool :=
  match view x with
  | VFin false _ => true
  | _ => false
  end.

(** The character classes of the groups of a pattern, in order, and what
    a captured text owes to its class. *)
Fixpoint group_classes (items : list re_item) : list (ascii -> bool) :=
  match items with
  | [] => []
  | Group p :: rest => p :: group_classes rest
  | _ :: rest => group_classes rest
  end.

Definition group_ok (p : ascii -> bool) (g : string) : Prop :=
  g <> "" /\ forallb p (list_ascii_of_string g) = true.

(** The texts of digits and dots that [float] accepts: at most one dot and
    at least one digit. *)
Definition dot_count (l : list ascii) : nat := count_occ ascii_dec l "."%char.

Definition float_text (g : string) : bool :=
  (dot_count (list_ascii_of_string g) <=? 1)%nat
  && existsb is_digit (list_ascii_of_string g).

(** The histories as a function of the messages received. *)
Section History.
Context {F : Type} `{PyFloat F}.

(** The messages of a sequence that the handler parses, each with its
    arrival time and its three numbers. *)
Definition samples (msgs : list (F * string)) : list (F * (F * F * F)) :=
  flat_map (fun m : F * string =>
              match parse_message (snd m) with
              | Some sample => [(fst m, sample)]
              | None => []
              end) msgs.

(** The successive values of [filtered_soc], from [previous] on. *)
Fixpoint smoothed (previous : option F) (socs : list F) : list F :=
  match socs with
  | [] => []
  | soc_val :: rest =>
      let filtered := smooth previous soc_val in
      filtered :: smoothed (Some filtered) rest
  end.

(** [filtered_soc] after the values [l] were stored: the last of them. *)
Definition last_filtered (previous : option F) (l : list F) : option F :=
  match rev l with
  | [] => previous
  | x :: _ => Some x
  end.

(** The entries a sample adds to the histories ([sample_soc] before
    smoothing). *)
Definition sample_time (now0 : F) (s : F * (F * F * F)) : F := (fst s - now0)%py.

Definition sample_voltage (s : F * (F * F * F)) : F := fst (fst (snd s)).

Definition sample_current (s : F * (F * F * F)) : F := snd (fst (snd s)).

Definition sample_soc (s : F * (F * F * F)) : F := snd (snd s).

(** What the handler keeps of the samples [ss] received since the window
    was created at [now0]. *)
Definition holds (now0 : F) (w : @main_window F) (ss : list (F * (F * F * F))) : Prop :=
  max_points w = 300 /\ start_time w = now0
  /\ time_data w = last_n 300 (map (sample_time now0) ss)
  /\ voltage_data w = last_n 300 (map sample_voltage ss)
  /\ current_data w = last_n 300 (map sample_current ss)
  /\ soc_data w = last_n 300 (smoothed None (map sample_soc ss))
  /\ filtered_soc w = last_filtered None (smoothed None (map sample_soc ss)).

End History.

(** The voltage, its state of charge and the current at a register value
    are finite with a clear sign bit (resp. not), decided on every register
    value. *)
Definition readable_step (v v' : float) : bool :=
  sign_clear_finite v && sign_clear_finite (b64_soc v)
  && sign_clear_finite v' && sign_clear_finite (b64_soc v').

Definition readable_current_step (c c' : float) : bool :=
  sign_clear_finite c && sign_clear_finite c'.

Definition unreadable_current_step (c c' : float) : bool :=
  negb (sign_clear_finite c) && negb (sign_clear_finite c').

(** *** [update_plots] *)
Inductive plot : Type := VoltagePlot | CurrentPlot | SocPlot.

(** What [update_plots] asks of PyQtGraph, in program order: [setData] on
    the curve of a plot, and [setTitle], [setXRange] and [setYRange] on the
    plot. *)
Inductive plot_call {F : Type} : Type :=
| SetData (p : plot) (x y : list F)
| SetTitle (p : plot) (text : string)
| SetXRange (p : plot) (x_min x_max padding : F)
| SetYRange (p : plot) (y_min y_max : F).

(** What indexing an empty list and [min] or [max] of an empty list
    raise ([EmptySequence] is the [ValueError] of [min] and [max]). *)
Inductive plot_exn : Type :=
| IndexError
| EmptySequence.

(** A computation that calls PyQtGraph and returns or raises: the calls
    made, then the result. *)
Definition plotting {F : Type} (A : Type) : Type :=
  list (@plot_call F) * (plot_exn + A).

Definition plot_bind {F A B : Type} (c : @plotting F A) (k : A -> @plotting F B)
  : @plotting F B :=
  match c with
  | (calls, inl e) => (calls, inl e)
  | (calls, inr a) => let (calls', r) := k a in ((calls ++ calls')%list, r)
  end.

Definition plot_do {F : Type} (c : @plot_call F) : @plotting F unit := ([c], inr tt).

Definition plot_eval {F A : Type} (r : plot_exn + A) : @plotting F A := ([], r).

Notation "x <~ c ;; k" := (plot_bind c (fun x => k))
  (at level 61, c at next level, right associativity).

Section Plots.

Context {F : Type} `{PyFloat F}.
#[local] Open Scope pyfloat_scope.

(** [l[0]] and [l[-1]] *)
Definition py_first (l : list F) : plot_exn + F :=
  match l with
  | [] => inl IndexError
  | x :: _ => inr x
  end.

Definition py_last (l : list F) : plot_exn + F :=
  match rev l with
  | [] => inl IndexError
  | x :: _ => inr x
  end.

(** [min(l)] and [max(l)]: the first item, replaced by each later item
    that compares below (above) the one kept. *)
Definition py_min (l : list F) : plot_exn + F :=
  match l with
  | [] => inl EmptySequence
  | x :: rest => inr (fold_left (fun kept item => if item <? kept then item else kept) rest x)
  end.

Definition py_max (l : list F) : plot_exn + F :=
  match l with
  | [] => inl EmptySequence
  | x :: rest => inr (fold_left (fun kept item => if kept <? item then item else kept) rest x)
  end.

(** [x != y] on floats: not both [x <= y] and [y <= x]. *)
Definition py_ne (x y : F) : bool := negb ((x <=? y) && (y <=? x)).

(** The history that a plot shows. *)
Definition history (w : @main_window F) (p : plot) : list F :=
  match p with
  | VoltagePlot => voltage_data w
  | CurrentPlot => current_data w
  | SocPlot => soc_data w
  end.

Definition plot_title (p : plot) (last : F) : string :=
  match p with
  | VoltagePlot =>
      "Voltage (V)<br><span style='font-size:14px; color:#FFF;'>"
        ++ format_f 3 last ++ " V</span>"
  | CurrentPlot =>
      "Current (A)<br><span style='font-size:14px; color:#FFF;'>"
        ++ format_f 4 last ++ " A</span>"
  | SocPlot =>
      "State of Charge (%)<br><span style='font-size:14px; color:#FFF;'>"
        ++ format_f 1 last ++ " %</span>"
  end.

(** The five lines that set the ranges of one plot. *)
Definition set_ranges (w : @main_window F) (p : plot) (x_min x_max : F)
  : plotting unit :=
  v_min <~ plot_eval (py_min (history w p)) ;;
  v_max <~ plot_eval (py_max (history w p)) ;;
  let v_range := if py_ne v_max v_min then v_max - v_min else lit 1 in
  let v_margin := v_range * lit (1 # 10) in
  _ <~ plot_do (SetXRange p x_min x_max (lit (1 # 100))) ;;
  plot_do (SetYRange p (v_min - v_margin) (v_max + v_margin)).

Definition update_plots (w : @main_window F) : plotting unit :=
  match time_data w with
  | [] => ([], inr tt)
  | _ :: _ =>
      _ <~ plot_do (SetData VoltagePlot (time_data w) (voltage_data w)) ;;
      _ <~ plot_do (SetData CurrentPlot (time_data w) (current_data w)) ;;
      _ <~ plot_do (SetData SocPlot (time_data w) (soc_data w)) ;;
      last_voltage <~ plot_eval (py_last (voltage_data w)) ;;
      last_current <~ plot_eval (py_last (current_data w)) ;;
      last_soc <~ plot_eval (py_last (soc_data w)) ;;
      _ <~ plot_do (SetTitle VoltagePlot (plot_title VoltagePlot last_voltage)) ;;
      _ <~ plot_do (SetTitle CurrentPlot (plot_title CurrentPlot last_current)) ;;
      _ <~ plot_do (SetTitle SocPlot (plot_title SocPlot last_soc)) ;;
      x_min <~ plot_eval (py_first (time_data w)) ;;
      x_max <~ plot_eval (py_last (time_data w)) ;;
      _ <~ set_ranges w VoltagePlot x_min x_max ;;
      _ <~ set_ranges w CurrentPlot x_min x_max ;;
      set_ranges w SocPlot x_min x_max
  end.

End Plots.

(** * Properties *)

(** ** The fault-detection state machine *)

Section PublisherFacts.
Context {F : Type} `{PyFloat F}.

Lemma cycle_invalid (st : monitor) (r : readings) :
  invalid_reading (voltage r) = true ->
  cycle st r = (fst (invalid_cycle st r),
                ReadVoltage :: ReadCurrent :: snd (invalid_cycle st r)).
Proof.
  unfold cycle, invalid_reading. intros Hinv.
  destruct (voltage r) as [v|]; [rewrite Hinv|]; reflexivity.
Qed.

Lemma cycle_valid (st : monitor) (r : readings) :
  invalid_reading (voltage r) = false ->
  exists v, voltage r = Some v /\
            cycle st r = (fst (valid_cycle st r v),
                          ReadVoltage :: ReadCurrent :: snd (valid_cycle st r v)).
Proof.
  unfold cycle, invalid_reading. intros Hval.
  destruct (voltage r) as [v|]; [|discriminate].
  exists v. rewrite Hval. split; reflexivity.
Qed.

Lemma final_app (st : monitor) (rs1 rs2 : list readings) :
  final st (rs1 ++ rs2) = final (final st rs1) rs2.
Proof. apply fold_left_app. Qed.

Lemma trailing_valid_snoc (rs : list readings) (r : readings) :
  trailing_valid (rs ++ [r]) =
  if invalid_reading (voltage r) then O else S (trailing_valid rs).
Proof. unfold trailing_valid. rewrite fold_left_app. reflexivity. Qed.

(** The counter of valid readings is the number of valid readings since
    the last invalid one, whatever the monitor went through. *)
Lemma valid_read_count_final (rs : list readings) :
  valid_read_count (final initial_monitor rs) = trailing_valid rs.
Proof.
  induction rs as [|r rs IH] using rev_ind; [reflexivity|].
  rewrite final_app, trailing_valid_snoc. cbn [final fold_left].
  destruct (invalid_reading (voltage r)) eqn:Hr.
  - rewrite (cycle_invalid _ _ Hr). reflexivity.
  - destruct (cycle_valid (final initial_monitor rs) r Hr) as [v [_ ->]].
    cbn. fold (final initial_monitor rs). now rewrite IH.
Qed.

(** After an invalid reading the monitor is disconnected and has counted
    no valid reading. *)
Lemma invalid_cycle_disconnects (st : monitor) (r : readings) :
  invalid_reading (voltage r) = true ->
  sensor_connected (fst (cycle st r)) = false /\
  valid_read_count (fst (cycle st r)) = 0 /\
  stable_count (fst (cycle st r)) = 0.
Proof. intros Hr. rewrite (cycle_invalid _ _ Hr). repeat split. Qed.

Lemma stable_reading_cycle (st : monitor) (r : readings) :
  stable_reading st r = true ->
  exists v, voltage r = Some v /\
    cycle st r = (fst (valid_cycle st r v),
                  ReadVoltage :: ReadCurrent :: snd (valid_cycle st r v)) /\
    stable_count (fst (valid_cycle st r v)) =
      (if (STABLE_THRESHOLD <=? S (stable_count st))%nat then 0 else S (stable_count st)) /\
    sensor_calls (snd (valid_cycle st r v)) =
      (if (STABLE_THRESHOLD <=? S (stable_count st))%nat
       then [Reset; Configure; ReadVoltage; ReadCurrent] else []).
Proof.
  unfold stable_reading. intros Hs.
  destruct (voltage r) as [v|] eqn:Hv; [|discriminate].
  destruct (last_voltage st) as [last|] eqn:Hl; [|discriminate].
  apply andb_true_iff in Hs. destruct Hs as [Hval Htol].
  apply negb_true_iff in Hval.
  exists v. split; [reflexivity|]. split.
  - unfold cycle. rewrite Hv, Hval. reflexivity.
  - unfold valid_cycle. cbn [fst snd stable_count]. rewrite Hl, Htol.
    destruct (STABLE_THRESHOLD <=? S (stable_count st))%nat; split; try reflexivity;
      destruct (negb (sensor_connected st) &&
                (VALID_READ_COUNT_FOR_RECONNECT <=? S (valid_read_count st))%nat);
      reflexivity.
Qed.

(** A stable window long enough for the counter to reach the threshold
    contains a cycle that forces the reinitialisation. *)
Lemma stable_window_forces (rs : list readings) :
  forall st : monitor,
  rs <> [] ->
  STABLE_THRESHOLD <= stable_count st + List.length rs ->
  stable_window st rs = true ->
  Exists (fun c => sensor_calls (snd c) =
                     [ReadVoltage; ReadCurrent; Reset; Configure;
                      ReadVoltage; ReadCurrent]
                   /\ stable_count (fst c) = 0)
         (run st rs).
Proof.
  induction rs as [|r rs IH]; intros st Hne Hlen Hwin; [congruence|].
  cbn [stable_window] in Hwin. apply andb_true_iff in Hwin.
  destruct Hwin as [Hr Hrest].
  destruct (stable_reading_cycle st r Hr) as [v [_ [Hc [Hcount Hcalls]]]].
  cbn [run]. rewrite Hc in *. cbn [fst snd] in *.
  destruct (STABLE_THRESHOLD <=? S (stable_count st))%nat eqn:Hth.
  - apply Exists_cons_hd. cbn [fst snd sensor_calls filter].
    fold (sensor_calls (snd (valid_cycle st r v))).
    rewrite Hcalls. split; [reflexivity|assumption].
  - apply Exists_cons_tl. apply Nat.leb_gt in Hth.
    apply IH; [|rewrite Hcount; cbn [List.length] in Hlen; lia|assumption].
    intros ->. cbn [List.length] in Hlen. lia.
Qed.

(** C3: a run of [FAILURE_THRESHOLD] invalid readings that starts with no
    failure counted, the sensor answering the presence probe, makes the
    monitor reinitialise the sensor (reset, then configure) once, in the
    cycle of the last of them, and leaves [consecutive_failures] at 0. *)
Theorem failure_threshold_reinitialises (st : monitor) (rs : list readings) :
  consecutive_failures st = 0 ->
  List.length rs = FAILURE_THRESHOLD ->
  Forall (fun r => invalid_reading (voltage r) = true /\ present r = true) rs ->
  map (fun c => sensor_calls (snd c)) (run st rs) =
    (repeat [ReadVoltage; ReadCurrent] (FAILURE_THRESHOLD - 1)
     ++ [[ReadVoltage; ReadCurrent; ProbePresent; Reset; Configure]])%list
  /\ consecutive_failures (final st rs) = 0.
Proof.
  intros Hzero Hlen Hall.
  destruct rs as [|r1 [|r2 [|r3 [|r4 rs]]]]; try discriminate Hlen.
  inversion Hall as [|? ? [Hi1 Hp1] Hall1]; subst.
  inversion Hall1 as [|? ? [Hi2 Hp2] Hall2]; subst.
  inversion Hall2 as [|? ? [Hi3 Hp3] _]; subst.
  unfold final. cbn [run fold_left map].
  rewrite (cycle_invalid st r1 Hi1). cbn [fst snd].
  rewrite (cycle_invalid _ r2 Hi2). cbn [fst snd].
  rewrite (cycle_invalid _ r3 Hi3). cbn [fst snd].
  unfold invalid_cycle. cbn [fst snd consecutive_failures sensor_connected].
  rewrite Hzero, Hp3. cbn.
  destruct (sensor_connected st); cbn; split; reflexivity.
Qed.

(** C4: from any state of the monitor, at whatever value the stability
    counter stands, [STABLE_THRESHOLD] readings in a row that are valid and
    within [TOLERANCE] of the retained voltage contain a cycle in which the
    monitor forces the reinitialisation (reset, configure, and both reads
    issued once more) and after which [stable_count] is 0. *)
Theorem stale_lock_forces_reinit (st : monitor) (rs : list readings) :
  List.length rs = STABLE_THRESHOLD ->
  stable_window st rs = true ->
  Exists (fun c => sensor_calls (snd c) =
                     [ReadVoltage; ReadCurrent; Reset; Configure;
                      ReadVoltage; ReadCurrent]
                   /\ stable_count (fst c) = 0)
         (run st rs).
Proof.
  intros Hlen Hwin. apply stable_window_forces; [| lia | assumption].
  intros ->. discriminate Hlen.
Qed.

(** C5: in every execution from the initial state the monitor passes from
    disconnected to connected only in a cycle that ends a run of at least
    [VALID_READ_COUNT_FOR_RECONNECT] valid readings; the reading that
    follows an invalid one never connects it. *)
Theorem reconnect_needs_consecutive_valid_reads :
  (forall (rs : list readings) (r : readings),
      sensor_connected (final initial_monitor rs) = false ->
      sensor_connected (final initial_monitor (rs ++ [r])) = true ->
      invalid_reading (voltage r) = false /\
      VALID_READ_COUNT_FOR_RECONNECT <= trailing_valid (rs ++ [r]))
  /\
  (forall (st : monitor) (r_bad r : readings),
      invalid_reading (voltage r_bad) = true ->
      sensor_connected (final st [r_bad; r]) = false).
Proof.
  split.
  - intros rs r Hoff Hon. rewrite final_app in Hon. cbn [final fold_left] in Hon.
    fold (final initial_monitor rs) in Hon.
    rewrite trailing_valid_snoc.
    destruct (invalid_reading (voltage r)) eqn:Hr.
    + rewrite (cycle_invalid _ _ Hr) in Hon. discriminate Hon.
    + destruct (cycle_valid (final initial_monitor rs) r Hr) as [v [_ Hc]].
      rewrite Hc in Hon. cbn in Hon. rewrite Hoff in Hon. cbn in Hon.
      rewrite valid_read_count_final in Hon.
      split; [reflexivity|].
      destruct (trailing_valid rs); [discriminate Hon|].
      unfold VALID_READ_COUNT_FOR_RECONNECT. lia.
  - intros st r_bad r Hbad. unfold final. cbn [fold_left].
    destruct (invalid_cycle_disconnects st r_bad Hbad) as [Hoff [Hcount _]].
    destruct (invalid_reading (voltage r)) eqn:Hr.
    + rewrite (cycle_invalid _ r Hr). reflexivity.
    + destruct (cycle_valid (fst (cycle st r_bad)) r Hr) as [v [_ Hc]].
      rewrite Hc. cbn. rewrite Hoff, Hcount. reflexivity.
Qed.

End PublisherFacts.

(** ** Text *)

Lemma chars_app (s t : string) :
  list_ascii_of_string (s ++ t) =
  (list_ascii_of_string s ++ list_ascii_of_string t)%list.
Proof. induction s as [|c s IH]; cbn; [reflexivity|now rewrite IH]. Qed.

Lemma uint_chars (d : Decimal.uint) (c : ascii) :
  In c (list_ascii_of_string (NilEmpty.string_of_uint d)) -> In c format_alphabet.
Proof.
  induction d; cbn [NilEmpty.string_of_uint list_ascii_of_string];
    intros Hin; try contradiction;
    (destruct Hin as [<-|Hin]; [cbn; tauto | now apply IHd]).
Qed.

Lemma digits_of_N_chars (n : N) (c : ascii) :
  In c (digits_of_N n) -> In c format_alphabet.
Proof.
  unfold digits_of_N, NilZero.string_of_uint.
  destruct (N.to_uint n); try apply uint_chars.
  cbn. intros [<-|[]]. tauto.
Qed.

Lemma fixed_digits_chars (d : nat) (n : Z) (c : ascii) :
  In c (fixed_digits d n) -> In c format_alphabet.
Proof.
  unfold fixed_digits.
  set (ds := (repeat "0"%char _ ++ digits_of_N (Z.to_N n))%list).
  assert (Hds : In c ds -> In c format_alphabet).
  { unfold ds. intros Hin. apply in_app_or in Hin. destruct Hin as [Hin|Hin].
    - apply repeat_spec in Hin. subst c. cbn. tauto.
    - now apply digits_of_N_chars in Hin. }
  destruct d as [|d]; [exact Hds|].
  intros Hin. apply in_app_or in Hin. destruct Hin as [Hin|[<-|Hin]].
  - apply Hds. rewrite <- (firstn_skipn (List.length ds - S d) ds).
    apply in_or_app. now left.
  - cbn. tauto.
  - apply Hds. rewrite <- (firstn_skipn (List.length ds - S d) ds).
    apply in_or_app. now right.
Qed.

Lemma format_f_chars {F : Type} `{PyFloat F} (d : nat) (x : F) (c : ascii) :
  In c (list_ascii_of_string (format_f d x)) -> In c format_alphabet.
Proof.
  unfold format_f. destruct (view x) as [|s|s q].
  - cbn. tauto.
  - destruct s; cbn; tauto.
  - rewrite list_ascii_of_string_of_list_ascii.
    destruct s; [intros [<-|Hin]; [cbn; tauto|]|intros Hin];
      now apply fixed_digits_chars in Hin.
Qed.

(** ** The wire message *)

Section MessageFacts.
Context {F : Type} `{PyFloat F}.

Lemma append_assoc (a b c : string) : (a ++ b) ++ c = a ++ b ++ c.
Proof. induction a as [|x a IH]; cbn; [reflexivity|now rewrite IH]. Qed.

Lemma sent_app (a b : list call) : sent (a ++ b) = (sent a ++ sent b)%list.
Proof. apply flat_map_app. Qed.

Lemma invalid_cycle_sent (st : @monitor F) (r : @readings F) :
  sent (snd (invalid_cycle st r)) = [disconnected_message].
Proof.
  unfold invalid_cycle. cbn [snd]. rewrite !sent_app.
  destruct (sensor_connected st);
    destruct (FAILURE_THRESHOLD <=? S (consecutive_failures st))%nat;
    destruct (present r); reflexivity.
Qed.

Lemma valid_cycle_sent (st : @monitor F) (r : @readings F) (v : F) :
  sent (snd (valid_cycle st r v)) =
  [publish_str (format_f 3 v ++ " V")
               match current r with
               | Some c => format_f 6 c ++ " A"
               | None => "N/A"
               end
               (format_f 1 (estimate_soc (Some v)) ++ "%")].
Proof.
  unfold valid_cycle. cbn [snd]. rewrite !sent_app.
  match goal with |- context [if ?b then [Print _; Reset; _; _; _; _] else _] =>
    destruct b end;
  match goal with |- context [if ?b then [Print "Battery Reconnected"] else _] =>
    destruct b end; reflexivity.
Qed.

Lemma cycle_sent_invalid (st : @monitor F) (r : @readings F) :
  invalid_reading (voltage r) = true ->
  sent (snd (cycle st r)) = [disconnected_message].
Proof.
  intros Hr. rewrite (cycle_invalid _ _ Hr). cbn [snd sent flat_map].
  apply invalid_cycle_sent.
Qed.

Lemma numeric_message_publish_str (v c s : F) :
  publish_str (format_f 3 v ++ " V") (format_f 6 c ++ " A") (format_f 1 s ++ "%")
  = numeric_message v c s.
Proof.
  unfold publish_str, numeric_message.
  now rewrite !append_assoc.
Qed.

Lemma percent_in_publish_str (a b c : string) :
  In "%"%char (list_ascii_of_string (publish_str a b (c ++ "%"))).
Proof.
  unfold publish_str. rewrite !chars_app.
  repeat (apply in_or_app; right). cbn. tauto.
Qed.

Lemma no_percent_in_disconnected_message :
  ~ In "%"%char (list_ascii_of_string disconnected_message).
Proof. cbn. intuition discriminate. Qed.

(** A text with a slash in it is not of the numeric format. *)
Lemma numeric_format_no_slash (msg : string) :
  numeric_format msg -> ~ In "/"%char (list_ascii_of_string msg).
Proof.
  intros [v [c [s ->]]] Hin. unfold numeric_message in Hin.
  rewrite !chars_app in Hin.
  repeat (apply in_app_or in Hin; destruct Hin as [Hin|Hin]);
    try (apply format_f_chars in Hin);
    cbn in Hin; intuition discriminate.
Qed.

End MessageFacts.

(** C1: in the cycle of [stale_monitor] on [stale_readings] the forced
    reinitialisation fires and both reads are issued again; the voltage
    retained is the one read again (16 V), and the message sent is the one
    formatted from the first reads (15 V, 0.5 A), not from the second. *)
Theorem stale_lock_publishes_first_reading :
  sensor_calls (snd (cycle stale_monitor stale_readings)) =
    [ReadVoltage; ReadCurrent; Reset; Configure; ReadVoltage; ReadCurrent]
  /\ last_voltage (fst (cycle stale_monitor stale_readings)) = Some 16.0%float
  /\ sent (snd (cycle stale_monitor stale_readings)) =
       ["Voltage: 15.000 V, Current: 0.500000 A, SoC: 9.8%"]
  /\ numeric_message 15.0%float 0.5%float (estimate_soc (Some 15.0%float)) =
       "Voltage: 15.000 V, Current: 0.500000 A, SoC: 9.8%"
  /\ numeric_message 16.0%float 0.7%float (estimate_soc (Some 16.0%float)) =
       "Voltage: 16.000 V, Current: 0.700000 A, SoC: 58.5%".
Proof. vm_compute. repeat split. Qed.

(** C10, as stated, fails: the first cycle of a fresh monitor on a reading
    whose voltage is valid and whose current is missing sends a message that
    is not of the numeric format. *)
Lemma valid_reading_without_current_not_numeric :
  invalid_reading (voltage readings_without_current) = false
  /\ sent (snd (cycle initial_monitor readings_without_current)) =
       ["Voltage: 15.000 V, Current: N/A, SoC: 9.8%"]
  /\ ~ numeric_format (F := float) "Voltage: 15.000 V, Current: N/A, SoC: 9.8%".
Proof.
  split; [vm_compute; reflexivity|]. split; [vm_compute; reflexivity|].
  intros Hnum. apply numeric_format_no_slash in Hnum. apply Hnum.
  cbn. tauto.
Qed.

(** C10, amended: every cycle sends one message, and the reading alone
    decides it, whatever the state of the monitor: the disconnected form
    exactly when the reading is invalid; on a valid reading the voltage and
    the state of charge in numbers, with the current in numbers when it was
    read and as N/A when it was not. *)
Theorem message_form_follows_reading {F : Type} `{PyFloat F}
    (st : @monitor F) (r : @readings F) :
  exists msg : string,
    sent (snd (cycle st r)) = [msg]
    /\ (msg = disconnected_message <-> invalid_reading (voltage r) = true)
    /\ (forall v : F, voltage r = Some v ->
          invalid_reading (voltage r) = false ->
          msg = match current r with
                | Some c => numeric_message v c (estimate_soc (Some v))
                | None => "Voltage: " ++ format_f 3 v ++ " V, Current: N/A, SoC: "
                                      ++ format_f 1 (estimate_soc (Some v)) ++ "%"
                end).
Proof.
  destruct (invalid_reading (voltage r)) eqn:Hr.
  - exists disconnected_message. split; [now apply cycle_sent_invalid|].
    split; [tauto|discriminate].
  - destruct (cycle_valid st r Hr) as [v [Hv Hc]].
    eexists. split; [rewrite Hc; cbn [snd sent flat_map]; apply valid_cycle_sent|].
    split.
    + split; [|discriminate]. intros E. exfalso.
      apply no_percent_in_disconnected_message. rewrite <- E.
      apply percent_in_publish_str.
    + intros v' Hv' _. rewrite Hv in Hv'. injection Hv' as <-.
      destruct (current r) as [c|].
      * apply numeric_message_publish_str.
      * unfold publish_str. now rewrite !append_assoc.
Qed.

(** ** The subscriber *)

Section SubscriberFacts.
Context {F : Type} `{PyFloat F}.

(** [update_time_left] writes the label and nothing else. *)
Lemma update_time_left_keeps (w : @main_window F) (soc_percent current_amp : F) :
  let w' := fst (update_time_left w soc_percent current_amp) in
  time_data w' = time_data w /\ voltage_data w' = voltage_data w /\
  current_data w' = current_data w /\ soc_data w' = soc_data w /\
  max_points w' = max_points w /\ filtered_soc w' = filtered_soc w /\
  start_time w' = start_time w /\ battery_capacity w' = battery_capacity w.
Proof.
  unfold update_time_left.
  destruct ((current_amp <? lit (1 # 100))%py || (soc_percent <? lit 1)%py);
    [|destruct (time_left_text _)]; cbn; repeat split.
Qed.

Lemma parse_message_no_match (msg : string) :
  re_search message_pattern msg = None -> parse_message (F := F) msg = None.
Proof. unfold parse_message. now intros ->. Qed.

Lemma handle_new_message_unparsed (w : @main_window F) (now : F) (msg : string) :
  parse_message (F := F) msg = None -> handle_new_message w now msg = (w, None).
Proof. unfold handle_new_message. now intros ->. Qed.

Lemma last_n_short {A : Type} (n : nat) (l : list A) :
  List.length l <= n -> last_n n l = l.
Proof.
  intros Hle. unfold last_n. destruct n as [|n]; [reflexivity|].
  replace (List.length l - S n) with 0 by lia. reflexivity.
Qed.

Lemma length_last_n {A : Type} (n : nat) (l : list A) :
  n <= List.length l -> n <> 0 -> List.length (last_n n l) = n.
Proof.
  intros Hle Hn. unfold last_n. destruct n as [|n]; [congruence|].
  rewrite length_skipn. lia.
Qed.

Lemma last_n_full_snoc {A : Type} (n : nat) (l : list A) (x : A) :
  List.length l = n -> n <> 0 -> last_n n (l ++ [x]) = (tl l ++ [x])%list.
Proof.
  intros Hlen Hn. unfold last_n. destruct n as [|n]; [congruence|].
  rewrite length_app, Hlen. cbn [List.length].
  replace (S n + 1 - S n) with 1 by lia.
  destruct l; [discriminate Hlen|reflexivity].
Qed.

Lemma record_sample_bounded (w : @main_window F) (now v c s : F) :
  window_bounded w -> window_bounded (fst (record_sample w now v c s)).
Proof.
  intros [Hmax [Hlen [Hv [Hc Hs]]]]. unfold record_sample.
  match goal with |- window_bounded (fst (update_time_left ?w0 ?a ?b)) =>
    destruct (update_time_left_keeps w0 a b) as [Et [Ev [Ec [Es [Em _]]]]];
    unfold window_bounded; rewrite Et, Ev, Ec, Es, Em
  end.
  cbn [time_data voltage_data current_data soc_data max_points].
  rewrite Hmax. rewrite !length_app. cbn [List.length].
  destruct (300 <? List.length (time_data w) + 1)%nat eqn:Hover.
  - apply Nat.ltb_lt in Hover.
    rewrite !length_last_n; rewrite ?length_app; cbn [List.length]; lia.
  - apply Nat.ltb_ge in Hover. rewrite !length_app. cbn [List.length]. lia.
Qed.

Lemma handle_new_message_bounded (w : @main_window F) (now : F) (msg : string) :
  window_bounded w -> window_bounded (fst (handle_new_message w now msg)).
Proof.
  intros Hw. unfold handle_new_message.
  destruct (parse_message msg) as [[[v c] s]|]; [|exact Hw].
  now apply record_sample_bounded.
Qed.

Lemma receive_bounded (msgs : list (F * string)) :
  forall w : @main_window F,
  window_bounded w -> window_bounded (receive w msgs).
Proof.
  induction msgs as [|[now msg] msgs IH]; intros w Hw; [exact Hw|].
  cbn [receive]. now apply IH, handle_new_message_bounded.
Qed.

Lemma new_window_bounded (now : F) : window_bounded (new_window now).
Proof. unfold window_bounded. cbn. repeat split; lia. Qed.

(** A full window takes the new point at the end and drops its first. *)
Lemma record_sample_full (w : @main_window F) (now v c s : F) :
  window_bounded w ->
  List.length (time_data w) = 300 ->
  let w' := fst (record_sample w now v c s) in
  time_data w' = (tl (time_data w) ++ [(now - start_time w)%py])%list /\
  voltage_data w' = (tl (voltage_data w) ++ [v])%list /\
  current_data w' = (tl (current_data w) ++ [c])%list /\
  soc_data w' = (tl (soc_data w) ++ [smooth (filtered_soc w) s])%list.
Proof.
  intros [Hmax [_ [Hv [Hc Hs]]]] Hfull. cbv zeta. unfold record_sample.
  match goal with |- context [fst (update_time_left ?w0 ?a ?b)] =>
    destruct (update_time_left_keeps w0 a b) as [Et [Ev [Ec [Es _]]]];
    rewrite Et, Ev, Ec, Es
  end.
  cbn [time_data voltage_data current_data soc_data].
  rewrite Hmax, length_app, Hfull. cbn [List.length Nat.add Nat.ltb Nat.leb].
  rewrite !last_n_full_snoc by congruence. repeat split.
Qed.

(** C9: the message an invalid cycle sends does not match the pattern of
    the subscriber, and a message that does not match (or whose groups are
    not numbers) leaves the window as it was, label included, and raises
    nothing. *)
Theorem unparseable_message_is_ignored :
  re_search message_pattern disconnected_message = None
  /\ (forall (st : @monitor F) (r : readings),
        invalid_reading (voltage r) = true ->
        sent (snd (cycle st r)) = [disconnected_message])
  /\ (forall (w : @main_window F) (now : F) (msg : string),
        re_search message_pattern msg = None ->
        handle_new_message w now msg = (w, None))
  /\ (forall (w : @main_window F) (now : F) (msg : string),
        parse_message (F := F) msg = None ->
        handle_new_message w now msg = (w, None)).
Proof.
  split; [vm_compute; reflexivity|].
  split; [intros st r; apply cycle_sent_invalid|].
  split.
  - intros w now msg Hno. apply handle_new_message_unparsed.
    now apply parse_message_no_match.
  - intros w now msg. apply handle_new_message_unparsed.
Qed.

(** C8: after any sequence of messages the four histories hold the same
    number of entries, at most 300; a parsed message that arrives when they
    hold 300 is appended and the entry at index 0 is dropped, the others
    keeping their order. *)
Theorem rolling_window_bounded (now0 : F) (msgs : list (F * string)) :
  let w := receive (new_window now0) msgs in
  (List.length (time_data w) <= 300 /\
   List.length (voltage_data w) = List.length (time_data w) /\
   List.length (current_data w) = List.length (time_data w) /\
   List.length (soc_data w) = List.length (time_data w))
  /\
  (forall (now : F) (msg : string) (v c s : F),
      parse_message msg = Some (v, c, s) ->
      List.length (time_data w) = 300 ->
      let w' := fst (handle_new_message w now msg) in
      time_data w' = (tl (time_data w) ++ [(now - start_time w)%py])%list /\
      voltage_data w' = (tl (voltage_data w) ++ [v])%list /\
      current_data w' = (tl (current_data w) ++ [c])%list /\
      soc_data w' = (tl (soc_data w) ++ [smooth (filtered_soc w) s])%list).
Proof.
  intros w.
  assert (Hw : window_bounded w)
    by (apply receive_bounded, new_window_bounded).
  split; [destruct Hw as [_ Hw]; exact Hw|].
  intros now msg v c s Hparse Hfull. unfold handle_new_message.
  rewrite Hparse. now apply record_sample_full.
Qed.

End SubscriberFacts.

(** ** Witnesses of the state-machine properties, in binary64 *)

Lemma failure_threshold_reinitialises_witness :
  map (fun c => sensor_calls (snd c))
      (run initial_monitor (repeat failed_readings 3)) =
    [[ReadVoltage; ReadCurrent]; [ReadVoltage; ReadCurrent];
     [ReadVoltage; ReadCurrent; ProbePresent; Reset; Configure]]
  /\ consecutive_failures (final initial_monitor (repeat failed_readings 3)) = 0.
Proof.
  apply (failure_threshold_reinitialises initial_monitor (repeat failed_readings 3)).
  - reflexivity.
  - reflexivity.
  - repeat constructor.
Defined.

Lemma stale_lock_forces_reinit_witness :
  Exists (fun c => sensor_calls (snd c) =
                     [ReadVoltage; ReadCurrent; Reset; Configure;
                      ReadVoltage; ReadCurrent]
                   /\ stable_count (fst c) = 0)
         (run (final initial_monitor [steady_readings]) (repeat steady_readings 3)).
Proof.
  apply (stale_lock_forces_reinit (final initial_monitor [steady_readings])
                                  (repeat steady_readings 3)).
  - reflexivity.
  - vm_compute. reflexivity.
Defined.

(** ** Exponential smoothing *)

Lemma alpha_Q : alpha (F := Q) = (2 # 10)%Q.
Proof. reflexivity. Qed.

Lemma smooth_constant_step_Q (x f0 : Q) (n : nat) :
  (smooth_constant f0 x (S n) - x == (8 # 10) * (smooth_constant f0 x n - x))%Q.
Proof.
  cbn [smooth_constant smooth]. cbn [fadd fmul fsub PyFloat_Q].
  rewrite alpha_Q. change (lit (F := Q) 1) with 1%Q. ring.
Qed.

Lemma fpow_step_Q (n : nat) :
  (fpow (F := Q) (lit 1 - alpha)%py (S n) == (8 # 10) * fpow (lit 1 - alpha)%py n)%Q.
Proof.
  cbn [fpow]. cbn [fmul fsub PyFloat_Q].
  rewrite alpha_Q. change (lit (F := Q) 1) with 1%Q. ring.
Qed.

(** C7, as stated, fails in binary64: seeded with 51 and updated once with
    the constant input 50, the filter is 0.8000000000000043 away from the
    input, and [(1 - alpha) ** 1 * |51 - 50|] is 0.8.  The two messages that
    bring the subscriber there are given. *)
Lemma smoothing_identity_fails_in_binary64 :
  filtered_soc
    (receive (new_window 0%float)
            [(1%float, "Voltage: 15.000 V, Current: 0.500000 A, SoC: 51.0%");
             (2%float, "Voltage: 15.000 V, Current: 0.500000 A, SoC: 50.0%")])
    = Some (smooth_constant 51%float 50%float 1)
  /\ fabs (smooth_constant 51%float 50%float 1 - 50%float)%py
     = 0.8000000000000043%float
  /\ (fpow (lit 1 - alpha) 1 * fabs (51%float - 50%float))%py = 0.8%float
  /\ fabs (smooth_constant 51%float 50%float 1 - 50%float)%py
     <> (fpow (lit 1 - alpha) 1 * fabs (51%float - 50%float))%py.
Proof.
  split; [vm_compute; reflexivity|].
  split; [vm_compute; reflexivity|].
  split; [vm_compute; reflexivity|].
  vm_compute. discriminate.
Qed.

(** C7, amended: the handler seeds [filtered_soc] with the first state of
    charge it parses and afterwards sets it to
    [alpha * soc + (1 - alpha) * previous], with [alpha] = 0.2; in exact
    arithmetic a constant input [x] after the seed [f0] gives
    [|f_n - x| = (1 - alpha)^n * |f0 - x|] after [n] updates. *)
Theorem exponential_smoothing :
  (forall (F : Type) (H : PyFloat F) (w : @main_window F) (now : F)
          (msg : string) (v c s : F),
      parse_message msg = Some (v, c, s) ->
      filtered_soc (fst (handle_new_message w now msg)) =
      Some match filtered_soc w with
           | None => s
           | Some previous => (alpha * s + (lit 1 - alpha) * previous)%py
           end)
  /\ alpha (F := float) = 0.2%float
  /\ alpha (F := Q) = (2 # 10)%Q
  /\ (forall (x f0 : Q) (n : nat),
        (Qabs (smooth_constant f0 x n - x)
         == fpow (lit 1 - alpha)%py n * Qabs (f0 - x))%Q).
Proof.
  split.
  { intros F H w now msg v c s Hparse. unfold handle_new_message.
    rewrite Hparse. unfold record_sample.
    match goal with |- context [fst (update_time_left ?w0 ?a ?b)] =>
      destruct (update_time_left_keeps w0 a b) as [_ [_ [_ [_ [_ [Ef _]]]]]];
      rewrite Ef
    end.
    reflexivity. }
  split; [vm_compute; reflexivity|].
  split; [reflexivity|].
  intros x f0 n. induction n as [|n IH].
  - cbn [smooth_constant fpow]. change (lit (F := Q) 1) with 1%Q. ring.
  - rewrite smooth_constant_step_Q, fpow_step_Q, Qabs_Qmult, IH.
    change (Qabs (8 # 10)) with (8 # 10)%Q. ring.
Qed.

(** ** The remaining-time projection *)

Lemma time_left_not_available {F : Type} `{PyFloat F}
    (w : @main_window F) (soc_percent current_amp : F) :
  (current_amp <? lit (1 # 100))%py || (soc_percent <? lit 1)%py = true ->
  update_time_left w soc_percent current_amp = (set_time_left w "Time Left: N/A", None).
Proof. unfold update_time_left. now intros ->. Qed.

(** C2, as stated, fails: with a capacity of 10 Ah, a state of charge of
    50 % and a current of 0.5 A the projection is 10 hours, not 1, and the
    label shows neither of the two texts of the claim. *)
Lemma half_amp_projection_is_not_one_hour :
  battery_capacity (new_window 0%float) = 10%float
  /\ hours_left 10%float 50%float 0.5%float = 10%float
  /\ hours_left 10%float 50%float 0.5%float <> 1%float
  /\ time_left_label (fst (update_time_left (new_window 0%float) 50%float 0.5%float))
     <> "Time Left: 60 min 0 s"
  /\ time_left_label (fst (update_time_left (new_window 0%float) 50%float 0.5%float))
     <> "Time Left: 1 h 0 min 0 s".
Proof.
  split; [vm_compute; reflexivity|].
  split; [vm_compute; reflexivity|].
  repeat split; vm_compute; discriminate.
Qed.

(** C2, amended: in a window whose capacity is 10 Ah, a current of 0.005 A
    at 50 % gives "Time Left: N/A"; 0.5 A at 50 % gives a projection of 10
    hours, shown as "Time Left: 10 h 0 min 0 s"; a projection of exactly one
    hour (5 A at 50 %) is shown as "Time Left: 1 h 0 min 0 s". *)
Theorem remaining_time_projection (w : @main_window float) :
  battery_capacity w = 10%float ->
  update_time_left w 50%float 0.005%float = (set_time_left w "Time Left: N/A", None)
  /\ hours_left (battery_capacity w) 50%float 0.5%float = 10%float
  /\ update_time_left w 50%float 0.5%float
     = (set_time_left w "Time Left: 10 h 0 min 0 s", None)
  /\ hours_left (battery_capacity w) 50%float 5%float = 1%float
  /\ update_time_left w 50%float 5%float
     = (set_time_left w "Time Left: 1 h 0 min 0 s", None).
Proof.
  intros Hcap.
  split; [apply time_left_not_available; vm_compute; reflexivity|].
  unfold update_time_left. rewrite Hcap.
  repeat split; vm_compute; reflexivity.
Qed.

Lemma remaining_time_projection_witness :
  update_time_left (new_window 0%float) 50%float 0.5%float
  = (set_time_left (new_window 0%float) "Time Left: 10 h 0 min 0 s", None).
Proof.
  assert (Hcap : battery_capacity (new_window 0%float) = 10%float)
    by (vm_compute; reflexivity).
  destruct (remaining_time_projection (new_window 0%float) Hcap)
    as [_ [_ [Hshown _]]].
  exact Hshown.
Defined.

(** ** The order of binary64 *)

Ltac sf_order :=
  repeat match goal with
  | H : context [(?a ?= ?b)%Z] |- _ => destruct (Z.compare_spec a b)
  | |- context [(?a ?= ?b)%Z] => destruct (Z.compare_spec a b)
  | H : context [Pos.compare_cont Eq ?a ?b] |- _ =>
      change (Pos.compare_cont Eq a b) with (Pos.compare a b) in *;
      destruct (Pos.compare_spec a b)
  | |- context [Pos.compare_cont Eq ?a ?b] =>
      change (Pos.compare_cont Eq a b) with (Pos.compare a b) in *;
      destruct (Pos.compare_spec a b)
  end;
  cbn in *; subst; try reflexivity; try discriminate; try lia.

Ltac sf_cases :=
  unfold SFleb, SFltb, SFcompare;
  repeat match goal with x : spec_float |- _ => destruct x as [?|?| |? ? ?] end;
  try discriminate; try reflexivity;
  repeat match goal with s : bool |- _ => destruct s end;
  try discriminate; try reflexivity; intros; sf_order.

Lemma SFleb_trans (a b c : spec_float) :
  SFleb a b = true -> SFleb b c = true -> SFleb a c = true.
Proof. sf_cases. Qed.

Lemma SFltb_leb_trans (a b c : spec_float) :
  SFltb a b = true -> SFleb b c = true -> SFltb a c = true.
Proof. sf_cases. Qed.

Lemma SFltb_leb (a b : spec_float) : SFltb a b = true -> SFleb a b = true.
Proof. sf_cases. Qed.

Lemma SFltb_not_leb (a b : spec_float) : SFltb a b = true -> SFleb b a = false.
Proof. sf_cases. Qed.

Lemma SFleb_refl_left (a b : spec_float) : SFleb a b = true -> SFleb a a = true.
Proof.
  unfold SFleb, SFcompare.
  destruct a as [sa|sa| |sa ma ea], b as [sb|sb| |sb mb eb];
    try discriminate; try reflexivity; intros _; destruct sa; cbn;
    rewrite ?Z.compare_refl;
    try match goal with |- context [Pos.compare_cont Eq ?m ?m] =>
          change (Pos.compare_cont Eq m m) with (Pos.compare m m);
          rewrite Pos.compare_refl
        end;
    reflexivity.
Qed.

Lemma b64_leb_trans (x y z : float) :
  (x <=? y)%float = true -> (y <=? z)%float = true -> (x <=? z)%float = true.
Proof. rewrite !leb_spec. apply SFleb_trans. Qed.

Lemma b64_ltb_leb_trans (x y z : float) :
  (x <? y)%float = true -> (y <=? z)%float = true -> (x <? z)%float = true.
Proof. rewrite !ltb_spec, leb_spec. apply SFltb_leb_trans. Qed.

Lemma b64_ltb_leb (x y : float) : (x <? y)%float = true -> (x <=? y)%float = true.
Proof. rewrite ltb_spec, leb_spec. apply SFltb_leb. Qed.

Lemma b64_ltb_not_leb (x y : float) :
  (x <? y)%float = true -> (y <=? x)%float = false.
Proof. rewrite ltb_spec, leb_spec. apply SFltb_not_leb. Qed.

Lemma b64_leb_refl_left (x y : float) :
  (x <=? y)%float = true -> (x <=? x)%float = true.
Proof. rewrite !leb_spec. apply SFleb_refl_left. Qed.

(** ** The state of charge *)

Lemma measure_bus_voltage_b64 (raw : Z) :
  measure_bus_voltage (Some raw) = Some (b64_bus_voltage raw).
Proof.
  unfold measure_bus_voltage, b64_bus_voltage. cbn [fmul fdiv PyFloat_b64].
  replace (lit (F := float) (125 # 100)) with 1.25%float by (vm_compute; reflexivity).
  replace (lit (F := float) 1000) with 1000%float by (vm_compute; reflexivity).
  reflexivity.
Qed.

Lemma estimate_soc_b64 (v : float) : estimate_soc (Some v) = b64_soc v.
Proof.
  unfold estimate_soc, b64_soc. cbn [fle fsub fmul fdiv PyFloat_b64].
  replace (min_v (F := float)) with 14.8%float by (vm_compute; reflexivity).
  replace (max_v (F := float)) with 16.85%float by (vm_compute; reflexivity).
  replace (lit (F := float) 0) with 0%float by (vm_compute; reflexivity).
  replace (lit (F := float) 100) with 100%float by (vm_compute; reflexivity).
  reflexivity.
Qed.

(** A voltage at or above 16.85 is above 14.8. *)
Lemma b64_full_not_empty (v : float) :
  (16.85 <=? v)%float = true -> (v <=? 14.8)%float = false.
Proof.
  rewrite !leb_spec.
  replace (Prim2SF 16.85) with (S754_finite false 4742853357574554 (-48))
    by (vm_compute; reflexivity).
  replace (Prim2SF 14.8) with (S754_finite false 8331659310635418 (-49))
    by (vm_compute; reflexivity).
  unfold SFleb, SFcompare.
  destruct (Prim2SF v) as [s|s| |s m e]; try discriminate;
    destruct s; try discriminate; try reflexivity.
  destruct (Z.compare_spec (-48) e); destruct (Z.compare_spec e (-49));
    try discriminate; try reflexivity; lia.
Qed.

Lemma b64_soc_full (v : float) :
  (16.85 <=? v)%float = true -> b64_soc v = 100%float.
Proof.
  intros Hfull. unfold b64_soc. now rewrite (b64_full_not_empty v Hfull), Hfull.
Qed.

Lemma b64_soc_between (v : float) :
  (14.8 <? v)%float = true -> (v <? 16.85)%float = true ->
  b64_soc v = ((v - 14.8) / (16.85 - 14.8) * 100)%float.
Proof.
  intros Hlo Hhi. unfold b64_soc.
  now rewrite (b64_ltb_not_leb _ _ Hlo), (b64_ltb_not_leb _ _ Hhi).
Qed.

Lemma chain_below_spec (step : float -> float -> bool) (V : Z -> float) (n : nat) :
  forall z : Z,
  chain_below step V n z (V z) = true ->
  forall k : Z, (z - Z.of_nat n <= k < z)%Z -> step (V k) (V (k + 1)%Z) = true.
Proof.
  induction n as [|n IH]; intros z Hchain k Hk; [lia|].
  cbn [chain_below] in Hchain. apply andb_true_iff in Hchain.
  destruct Hchain as [Hstep Hrest].
  destruct (Z.eq_dec k (z - 1)) as [->|Hne].
  - now replace (z - 1 + 1)%Z with z by lia.
  - apply (IH (z - 1)%Z Hrest). lia.
Qed.

Lemma driver_chain :
  chain_below driver_step b64_bus_voltage (Z.to_nat 65535) 65535
              (b64_bus_voltage 65535) = true.
Proof. vm_compute. reflexivity. Qed.

Lemma driver_steps (k : Z) :
  (0 <= k < 65535)%Z ->
  driver_step (b64_bus_voltage k) (b64_bus_voltage (k + 1)) = true.
Proof.
  intros Hk. apply (chain_below_spec _ _ _ _ driver_chain).
  rewrite Z2Nat.id; lia.
Qed.

Lemma driver_step_parts (v v' : float) :
  driver_step v v' = true ->
  (v <? v')%float = true /\
  (b64_soc v <=? b64_soc v')%float = true /\
  ((0 <=? b64_soc v)%float = true /\ (b64_soc v <=? 100)%float = true) /\
  ((0 <=? b64_soc v')%float = true /\ (b64_soc v' <=? 100)%float = true).
Proof.
  unfold driver_step. rewrite !andb_true_iff. tauto.
Qed.

Lemma driver_soc_range (k : Z) :
  (0 <= k < 65536)%Z ->
  (0 <=? b64_soc (b64_bus_voltage k))%float = true /\
  (b64_soc (b64_bus_voltage k) <=? 100)%float = true.
Proof.
  intros Hk. destruct (Z.eq_dec k 65535) as [->|Hne].
  - apply (driver_step_parts _ _ (driver_steps 65534 ltac:(lia))).
  - apply (driver_step_parts _ _ (driver_steps k ltac:(lia))).
Qed.

Lemma driver_soc_monotone (n : nat) :
  forall k : Z, (0 <= k)%Z -> (k + Z.of_nat n < 65536)%Z ->
  (b64_soc (b64_bus_voltage k) <=? b64_soc (b64_bus_voltage (k + Z.of_nat n)))%float
  = true.
Proof.
  induction n as [|n IH]; intros k Hk Hn.
  - replace (k + Z.of_nat 0)%Z with k by lia.
    apply (b64_leb_refl_left _ 100%float), driver_soc_range. lia.
  - apply (b64_leb_trans _ (b64_soc (b64_bus_voltage (k + Z.of_nat n)))).
    + apply IH; lia.
    + replace (k + Z.of_nat (S n))%Z with (k + Z.of_nat n + 1)%Z by lia.
      apply (driver_step_parts _ _ (driver_steps (k + Z.of_nat n) ltac:(lia))).
Qed.

Lemma driver_voltage_increasing (n : nat) :
  forall k : Z, (0 <= k)%Z -> (k + Z.of_nat (S n) < 65536)%Z ->
  (b64_bus_voltage k <? b64_bus_voltage (k + Z.of_nat (S n)))%float = true.
Proof.
  induction n as [|n IH]; intros k Hk Hn.
  - change (Z.of_nat 1) with 1%Z.
    apply (driver_step_parts _ _ (driver_steps k ltac:(lia))).
  - apply (b64_ltb_leb_trans _ (b64_bus_voltage (k + Z.of_nat (S n)))).
    + apply IH; lia.
    + replace (k + Z.of_nat (S (S n)))%Z with (k + Z.of_nat (S n) + 1)%Z by lia.
      apply b64_ltb_leb.
      apply (driver_step_parts _ _ (driver_steps (k + Z.of_nat (S n)) ltac:(lia))).
Qed.

(** On the voltages the driver returns, the state of charge follows the
    voltage. *)
Lemma driver_soc_follows_voltage (raw1 raw2 : Z) :
  (0 <= raw1 < 65536)%Z -> (0 <= raw2 < 65536)%Z ->
  (b64_bus_voltage raw1 <=? b64_bus_voltage raw2)%float = true ->
  (b64_soc (b64_bus_voltage raw1) <=? b64_soc (b64_bus_voltage raw2))%float = true.
Proof.
  intros H1 H2 Hle. destruct (Z_le_gt_dec raw1 raw2) as [Hord|Hord].
  - replace raw2 with (raw1 + Z.of_nat (Z.to_nat (raw2 - raw1)))%Z
      by (rewrite Z2Nat.id; lia).
    apply driver_soc_monotone; [lia|rewrite Z2Nat.id; lia].
  - exfalso.
    assert (Hlt : (b64_bus_voltage raw2 <? b64_bus_voltage raw1)%float = true).
    { replace raw1 with (raw2 + Z.of_nat (S (Z.to_nat (raw1 - raw2 - 1))))%Z
        by (rewrite Nat2Z.inj_succ, Z2Nat.id; lia).
      apply driver_voltage_increasing; [lia|rewrite Nat2Z.inj_succ, Z2Nat.id; lia]. }
    apply b64_ltb_not_leb in Hlt. congruence.
Qed.

(** *** In exact arithmetic *)

Lemma estimate_soc_Q (v : Q) :
  estimate_soc (Some v) =
  if Qle_bool v (148 # 10) then 0%Q
  else if Qle_bool (1685 # 100) v then 100%Q
  else ((v - (148 # 10)) / ((1685 # 100) - (148 # 10)) * 100)%Q.
Proof. reflexivity. Qed.

Lemma interpolation_Q (v : Q) :
  ((v - (148 # 10)) / ((1685 # 100) - (148 # 10)) * 100
   == (v - (148 # 10)) * (10000 # 205))%Q.
Proof. field. Qed.

Lemma Qle_bool_false (x y : Q) : Qle_bool x y = false -> (y < x)%Q.
Proof.
  intros Hf. apply Qnot_le_lt. rewrite <- Qle_bool_iff. congruence.
Qed.

Lemma estimate_soc_Q_range (v : option Q) : (0 <= estimate_soc v <= 100)%Q.
Proof.
  destruct v as [v|]; [|split; discriminate].
  rewrite estimate_soc_Q.
  destruct (Qle_bool v (148 # 10)) eqn:E1; [split; discriminate|].
  destruct (Qle_bool (1685 # 100) v) eqn:E2; [split; discriminate|].
  apply Qle_bool_false in E1, E2. rewrite interpolation_Q. split; lra.
Qed.

Lemma estimate_soc_Q_monotone (v1 v2 : Q) :
  (v1 <= v2)%Q -> (estimate_soc (Some v1) <= estimate_soc (Some v2))%Q.
Proof.
  intros Hle.
  pose proof (estimate_soc_Q_range (Some v1)) as [_ Htop].
  pose proof (estimate_soc_Q_range (Some v2)) as [Hbot _].
  rewrite !estimate_soc_Q in *.
  destruct (Qle_bool v1 (148 # 10)) eqn:A1; [exact Hbot|].
  destruct (Qle_bool (1685 # 100) v2) eqn:B2;
    [destruct (Qle_bool v2 (148 # 10)) eqn:A2; [|exact Htop]|].
  - apply Qle_bool_iff in A2, B2. lra.
  - apply Qle_bool_false in A1, B2.
    destruct (Qle_bool v2 (148 # 10)) eqn:A2; [apply Qle_bool_iff in A2; lra|].
    destruct (Qle_bool (1685 # 100) v1) eqn:B1; [apply Qle_bool_iff in B1; lra|].
    rewrite !interpolation_Q. lra.
Qed.

Lemma b64_constants :
  min_v (F := float) = 14.8%float /\ max_v (F := float) = 16.85%float /\
  lit (F := float) 0 = 0%float /\ lit (F := float) 100 = 100%float.
Proof. repeat split; vm_compute; reflexivity. Qed.

(** C6, as stated, fails in binary64: at 15.825 V, which the driver returns
    for the register value 12660, the estimate is 49.999999999999915 and
    not 50.0; and a not-a-number voltage gives an estimate outside
    [0, 100]. *)
Lemma estimate_soc_midpoint_is_not_50 :
  measure_bus_voltage (Some 12660%Z) = Some 15.825%float
  /\ estimate_soc (Some 15.825%float) = 49.999999999999915%float
  /\ estimate_soc (Some 15.825%float) <> 50%float
  /\ (lit 0 <=? estimate_soc (Some PrimFloat.nan))%py = false.
Proof.
  split; [vm_compute; reflexivity|].
  split; [vm_compute; reflexivity|].
  split; [vm_compute; discriminate|vm_compute; reflexivity].
Qed.

(** C6, amended.  In every arithmetic: no voltage gives 0, and so does a
    voltage at or below 14.8.  In binary64: a voltage at or above 16.85
    gives 100; a voltage strictly between the bounds gives
    [(v - 14.8) / (16.85 - 14.8) * 100.0] as binary64 evaluates it, which at
    15.825 is 49.999999999999915; on the voltages the driver returns (a
    16-bit register value times 1.25 mV) the estimate lies in [0, 100] and
    does not decrease when the voltage grows.  In exact arithmetic: the
    estimate at 15.825 is 50, a voltage at or above 16.85 gives 100, one
    strictly between the bounds gives the interpolation, and on every
    voltage the estimate lies in [0, 100] and is monotone. *)
Theorem estimate_soc_profile :
  (forall (F : Type) (H : PyFloat F), estimate_soc (F := F) None = lit 0)
  /\ (forall (F : Type) (H : PyFloat F) (v : F),
        (v <=? min_v)%py = true -> estimate_soc (Some v) = lit 0)
  /\ (forall v : float,
        (max_v <=? v)%py = true -> estimate_soc (Some v) = 100%float)
  /\ (forall v : float,
        (min_v <? v)%py = true -> (v <? max_v)%py = true ->
        estimate_soc (Some v) = ((v - min_v) / (max_v - min_v) * lit 100)%py)
  /\ estimate_soc (Some 15.825%float) = 49.999999999999915%float
  /\ (forall (raw : Z) (v : float),
        (0 <= raw < 65536)%Z -> measure_bus_voltage (Some raw) = Some v ->
        (lit 0 <=? estimate_soc (Some v))%py = true
        /\ (estimate_soc (Some v) <=? lit 100)%py = true)
  /\ (forall (raw1 raw2 : Z) (v1 v2 : float),
        (0 <= raw1 < 65536)%Z -> (0 <= raw2 < 65536)%Z ->
        measure_bus_voltage (Some raw1) = Some v1 ->
        measure_bus_voltage (Some raw2) = Some v2 ->
        (v1 <=? v2)%py = true ->
        (estimate_soc (Some v1) <=? estimate_soc (Some v2))%py = true)
  /\ (estimate_soc (Some (15825 # 1000)) == 50)%Q
  /\ (forall v : Q, (1685 # 100 <= v)%Q -> (estimate_soc (Some v) == 100)%Q)
  /\ (forall v : Q, (148 # 10 < v)%Q -> (v < 1685 # 100)%Q ->
        (estimate_soc (Some v)
         == (v - (148 # 10)) / ((1685 # 100) - (148 # 10)) * 100)%Q)
  /\ (forall v : option Q, (0 <= estimate_soc v <= 100)%Q)
  /\ (forall v1 v2 : Q,
        (v1 <= v2)%Q -> (estimate_soc (Some v1) <= estimate_soc (Some v2))%Q).
Proof.
  destruct b64_constants as [Emin [Emax [E0 E100]]].
  split; [reflexivity|].
  split; [intros F H v Hv; unfold estimate_soc; now rewrite Hv|].
  split.
  { intros v. cbn [fle PyFloat_b64]. rewrite Emax, estimate_soc_b64.
    apply b64_soc_full. }
  split.
  { intros v. cbn [flt fsub fdiv fmul PyFloat_b64].
    rewrite Emin, Emax, E100, estimate_soc_b64. apply b64_soc_between. }
  split; [vm_compute; reflexivity|].
  split.
  { intros raw v Hraw. rewrite measure_bus_voltage_b64. intros [= <-].
    cbn [fle PyFloat_b64]. rewrite E0, E100, estimate_soc_b64.
    now apply driver_soc_range. }
  split.
  { intros raw1 raw2 v1 v2 H1 H2. rewrite !measure_bus_voltage_b64.
    intros [= <-] [= <-]. cbn [fle PyFloat_b64]. rewrite !estimate_soc_b64.
    now apply driver_soc_follows_voltage. }
  split; [vm_compute; reflexivity|].
  split.
  { intros v Hv. rewrite estimate_soc_Q.
    destruct (Qle_bool v (148 # 10)) eqn:E1; [apply Qle_bool_iff in E1; lra|].
    apply Qle_bool_iff in Hv. now rewrite Hv. }
  split.
  { intros v Hlo Hhi. rewrite estimate_soc_Q.
    destruct (Qle_bool v (148 # 10)) eqn:E1; [apply Qle_bool_iff in E1; lra|].
    destruct (Qle_bool (1685 # 100) v) eqn:E2; [apply Qle_bool_iff in E2; lra|].
    reflexivity. }
  split; [exact estimate_soc_Q_range|exact estimate_soc_Q_monotone].
Qed.

(** ** Further witnesses, in binary64 *)

(** Two steady readings connect a fresh monitor, and the second is the one
    that does. *)
Lemma reconnect_needs_consecutive_valid_reads_witness :
  invalid_reading (voltage steady_readings) = false /\
  VALID_READ_COUNT_FOR_RECONNECT <= trailing_valid ([steady_readings] ++ [steady_readings]).
Proof.
  destruct (reconnect_needs_consecutive_valid_reads (F := float)) as [Hflip _].
  apply (Hflip [steady_readings] steady_readings).
  - vm_compute. reflexivity.
  - vm_compute. reflexivity.
Defined.

(** The window after 300 messages holds 300 entries, and the next message
    takes the place of the oldest. *)
Lemma rolling_window_bounded_witness :
  voltage_data
    (fst (handle_new_message
            (receive (new_window 0%float)
                     (repeat (1%float, "Voltage: 15.000 V, Current: 0.500000 A, SoC: 9.8%")
                             300))
            2%float "Voltage: 16.000 V, Current: 0.700000 A, SoC: 58.5%"))
  = (repeat 15%float 299 ++ [16%float])%list.
Proof.
  destruct (rolling_window_bounded 0%float
              (repeat (1%float, "Voltage: 15.000 V, Current: 0.500000 A, SoC: 9.8%") 300))
    as [_ Hfull].
  destruct (Hfull 2%float "Voltage: 16.000 V, Current: 0.700000 A, SoC: 58.5%"
                  16%float 0.7%float 58.5%float) as [_ [Hv _]].
  - vm_compute. reflexivity.
  - vm_compute. reflexivity.
  - rewrite Hv. vm_compute. reflexivity.
Defined.

(** The message of a disconnected cycle leaves a fresh window as it is. *)
Lemma unparseable_message_is_ignored_witness :
  handle_new_message (new_window 0%float) 1%float disconnected_message
  = (new_window 0%float, None).
Proof.
  destruct (unparseable_message_is_ignored (F := float)) as [Hno [_ [Hdrop _]]].
  apply Hdrop. exact Hno.
Defined.

(** * Further properties of the code *)

(** ** The registers *)

Lemma lor_shiftl_byte (hi lo : Z) :
  (0 <= lo < 256)%Z -> Z.lor (Z.shiftl hi 8) lo = (hi * 256 + lo)%Z.
Proof.
  intros Hlo. rewrite Z.shiftl_mul_pow2 by lia. change (2 ^ 8)%Z with 256%Z.
  assert (Hdisjoint : Z.land (hi * 256) lo = 0%Z);
    [|now rewrite Z.add_nocarry_lxor, Z.lxor_lor].
  apply Z.bits_inj'. intros n Hn. rewrite Z.land_spec, Z.bits_0.
  destruct (Z_lt_ge_dec n 8) as [Hlt|Hge].
  - replace (hi * 256)%Z with (hi * 2 ^ 8)%Z by reflexivity.
    rewrite Z.mul_pow2_bits_low by lia. reflexivity.
  - replace lo with (lo mod 2 ^ 8)%Z by (apply Z.mod_small; exact Hlo).
    rewrite Z.mod_pow2_bits_high by lia. apply andb_false_r.
Qed.

(** X1: the two bytes [write_register] sends are bytes, and [read_register]
    puts them together to the value written, for a Python integer of any
    size up to its low 16 bits. *)
Theorem register_bytes_round_trip (value : Z) :
  exists data0 data1 : Z,
    write_register_data value = [data0; data1]
    /\ (0 <= data0 < 256)%Z /\ (0 <= data1 < 256)%Z
    /\ read_register data0 data1 = (value mod 65536)%Z.
Proof.
  unfold write_register_data, read_register.
  eexists. eexists. split; [reflexivity|].
  change 0xFF%Z with (Z.ones 8). rewrite !Z.land_ones by lia.
  rewrite Z.shiftr_div_pow2 by lia. change (2 ^ 8)%Z with 256%Z.
  assert (H1 : (0 <= (value / 256) mod 256 < 256)%Z) by (apply Z.mod_pos_bound; lia).
  assert (H2 : (0 <= value mod 256 < 256)%Z) by (apply Z.mod_pos_bound; lia).
  split; [exact H1|]. split; [exact H2|].
  rewrite lor_shiftl_byte by exact H2.
  rewrite (Z.div_mod value 256) at 3 by lia.
  rewrite (Z.div_mod (value / 256) 256) at 2 by lia.
  replace (256 * (256 * (value / 256 / 256) + (value / 256) mod 256) + value mod 256)%Z
    with ((value / 256) mod 256 * 256 + value mod 256 + (value / 256 / 256) * 65536)%Z
    by ring.
  rewrite Z.mod_add by lia. symmetry. apply Z.mod_small. lia.
Qed.

(** X2: two bytes read are the two bytes that writing their value sends. *)
Theorem register_value_round_trip (data0 data1 : Z) :
  (0 <= data0 < 256)%Z -> (0 <= data1 < 256)%Z ->
  (0 <= read_register data0 data1 < 65536)%Z
  /\ write_register_data (read_register data0 data1) = [data0; data1].
Proof.
  intros H0 H1. unfold write_register_data, read_register.
  rewrite lor_shiftl_byte by exact H1. split; [lia|].
  change 0xFF%Z with (Z.ones 8). rewrite !Z.land_ones by lia.
  rewrite Z.shiftr_div_pow2 by lia. change (2 ^ 8)%Z with 256%Z.
  rewrite Z.div_add_l by lia. rewrite (Z.div_small data1 256) by lia.
  rewrite Z.add_0_r. rewrite (Z.mod_small data0 256) by lia.
  rewrite Z.add_comm, Z.mod_add by lia. rewrite (Z.mod_small data1 256) by lia.
  reflexivity.
Qed.

Lemma register_value_round_trip_witness :
  write_register_data (read_register 0x41 0x27) = [0x41; 0x27]%Z.
Proof.
  apply (register_value_round_trip 0x41 0x27); lia.
Defined.

(** ** The driver, in binary64 *)

Lemma SFleb_not_ltb (a b : spec_float) : SFleb a b = true -> SFltb b a = false.
Proof. sf_cases. Qed.

Lemma SFleb_ltb_trans (a b c : spec_float) :
  SFleb a b = true -> SFltb b c = true -> SFltb a c = true.
Proof. sf_cases. Qed.

Lemma b64_leb_not_ltb (x y : float) :
  (x <=? y)%float = true -> (y <? x)%float = false.
Proof. rewrite ltb_spec, leb_spec. apply SFleb_not_ltb. Qed.

Lemma b64_leb_ltb_trans (x y z : float) :
  (x <=? y)%float = true -> (y <? z)%float = true -> (x <? z)%float = true.
Proof. rewrite !ltb_spec, leb_spec. apply SFleb_ltb_trans. Qed.

Lemma measure_shunt_current_b64 (raw : Z) :
  measure_shunt_current (Some raw) = Some (b64_shunt_current raw).
Proof.
  unfold measure_shunt_current, b64_shunt_current. cbn [fmul fdiv PyFloat_b64].
  replace (SHUNT_LSB (F := float)) with 2.5e-6%float by (vm_compute; reflexivity).
  replace (SHUNT_RESISTOR (F := float)) with 0.1%float by (vm_compute; reflexivity).
  reflexivity.
Qed.

Lemma shunt_chain_low :
  chain_below shunt_step_low b64_shunt_current (Z.to_nat 32767) 32767
              (b64_shunt_current 32767) = true.
Proof. vm_compute. reflexivity. Qed.

Lemma shunt_chain_high :
  chain_below shunt_step_high b64_shunt_current (Z.to_nat 32767) 65535
              (b64_shunt_current 65535) = true.
Proof. vm_compute. reflexivity. Qed.

Lemma shunt_steps_low (k : Z) :
  (0 <= k < 32767)%Z ->
  shunt_step_low (b64_shunt_current k) (b64_shunt_current (k + 1)) = true.
Proof.
  intros Hk. apply (chain_below_spec _ _ _ _ shunt_chain_low).
  rewrite Z2Nat.id; lia.
Qed.

Lemma shunt_steps_high (k : Z) :
  (32768 <= k < 65535)%Z ->
  shunt_step_high (b64_shunt_current k) (b64_shunt_current (k + 1)) = true.
Proof.
  intros Hk. apply (chain_below_spec _ _ _ _ shunt_chain_high).
  rewrite Z2Nat.id; lia.
Qed.

(** The voltages the driver returns are ordered as the register values. *)
Lemma driver_voltage_order (raw1 raw2 : Z) :
  (0 <= raw1)%Z -> (raw1 < raw2)%Z -> (raw2 < 65536)%Z ->
  (b64_bus_voltage raw1 <? b64_bus_voltage raw2)%float = true.
Proof.
  intros H0 H1 H2.
  replace raw2 with (raw1 + Z.of_nat (S (Z.to_nat (raw2 - raw1 - 1))))%Z
    by (rewrite Nat2Z.inj_succ, Z2Nat.id; lia).
  apply driver_voltage_increasing; [lia|rewrite Nat2Z.inj_succ, Z2Nat.id; lia].
Qed.

Lemma driver_voltage_order_le (raw1 raw2 : Z) :
  (0 <= raw1)%Z -> (raw1 <= raw2)%Z -> (raw2 < 65536)%Z ->
  (b64_bus_voltage raw1 <=? b64_bus_voltage raw2)%float = true.
Proof.
  intros H0 H1 H2. destruct (Z.eq_dec raw1 raw2) as [<-|Hne].
  - destruct (Z.eq_dec raw1 65535) as [->|Hlast]; [vm_compute; reflexivity|].
    apply (b64_leb_refl_left _ (b64_bus_voltage (raw1 + 1))), b64_ltb_leb.
    apply driver_voltage_order; lia.
  - apply b64_ltb_leb, driver_voltage_order; lia.
Qed.

(** X3: the bus voltage grows strictly with the register value, from 0 V at 0
    to 81.91875 V at 65535. *)
Theorem bus_voltage_increasing (raw1 raw2 : Z) (v1 v2 : float) :
  (0 <= raw1 < 65536)%Z -> (0 <= raw2 < 65536)%Z ->
  measure_bus_voltage (Some raw1) = Some v1 ->
  measure_bus_voltage (Some raw2) = Some v2 ->
  ((v1 <? v2)%float = true <-> (raw1 < raw2)%Z)
  /\ (0 <=? v1)%float = true /\ (v1 <=? 81.91875)%float = true.
Proof.
  intros H1 H2. rewrite !measure_bus_voltage_b64. intros [= <-] [= <-].
  split; [split|split].
  - intros Hlt. destruct (Z_lt_ge_dec raw1 raw2) as [Hord|Hord]; [exact Hord|].
    exfalso.
    assert (Hge : (b64_bus_voltage raw2 <=? b64_bus_voltage raw1)%float = true)
      by (apply driver_voltage_order_le; lia).
    apply b64_leb_not_ltb in Hge. congruence.
  - intros Hord. apply driver_voltage_order; lia.
  - change 0%float with (b64_bus_voltage 0).
    apply driver_voltage_order_le; lia.
  - change 81.91875%float with (b64_bus_voltage 65535).
    apply driver_voltage_order_le; lia.
Qed.

Lemma bus_voltage_increasing_witness :
  (0 <=? 15.825)%float = true /\ (15.825 <=? 81.91875)%float = true.
Proof.
  apply (bus_voltage_increasing 12660 12661 15.825%float 15.82625%float);
    try lia; vm_compute; reflexivity.
Defined.

(** X4: a register value below 80 (less than 0.1 V) is an invalid reading, as is
    a failed read; every register value from 80 on is a valid one. *)
Theorem invalid_reading_threshold (raw : Z) :
  (0 <= raw < 65536)%Z ->
  invalid_reading (F := float) (measure_bus_voltage None) = true
  /\ invalid_reading (F := float) (measure_bus_voltage (Some raw)) = (raw <? 80)%Z.
Proof.
  intros Hraw. split; [reflexivity|].
  rewrite measure_bus_voltage_b64. unfold invalid_reading. cbn [flt PyFloat_b64].
  replace (lit (F := float) (1 # 10)) with 0.1%float by (vm_compute; reflexivity).
  destruct (Z.ltb_spec raw 80) as [Hlow|Hhigh].
  - apply (b64_leb_ltb_trans _ (b64_bus_voltage 79)).
    + apply driver_voltage_order_le; lia.
    + vm_compute. reflexivity.
  - apply b64_leb_not_ltb.
    apply (b64_leb_trans _ (b64_bus_voltage 80)).
    + vm_compute. reflexivity.
    + apply driver_voltage_order_le; lia.
Qed.

Lemma invalid_reading_threshold_witness :
  invalid_reading (F := float) (measure_bus_voltage (Some 79%Z)) = true.
Proof.
  destruct (invalid_reading_threshold 79) as [_ Hraw]; [lia|].
  exact Hraw.
Defined.

(** X5: in register values: the state of charge is 0 up to 11840 (14.8 V),
    100 from 13480 (16.85 V) on, and strictly between 0 and 100 in
    between. *)
Theorem state_of_charge_thresholds (raw : Z) (v : float) :
  (0 <= raw < 65536)%Z ->
  measure_bus_voltage (Some raw) = Some v ->
  ((raw <= 11840)%Z -> estimate_soc (Some v) = 0%float)
  /\ ((13480 <= raw)%Z -> estimate_soc (Some v) = 100%float)
  /\ ((11840 < raw < 13480)%Z ->
      (0 <? estimate_soc (Some v))%float = true
      /\ (estimate_soc (Some v) <? 100)%float = true).
Proof.
  intros Hraw. rewrite measure_bus_voltage_b64. intros [= <-].
  rewrite estimate_soc_b64. split; [|split].
  - intros Hlow. unfold b64_soc.
    assert (Hle : (b64_bus_voltage raw <=? 14.8)%float = true).
    { apply (b64_leb_trans _ (b64_bus_voltage 11840));
        [apply driver_voltage_order_le; lia|vm_compute; reflexivity]. }
    now rewrite Hle.
  - intros Hhigh. apply b64_soc_full.
    apply (b64_leb_trans _ (b64_bus_voltage 13480));
      [vm_compute; reflexivity|apply driver_voltage_order_le; lia].
  - intros Hmid. split.
    + apply (b64_ltb_leb_trans _ (b64_soc (b64_bus_voltage 11841)));
        [vm_compute; reflexivity|].
      apply driver_soc_follows_voltage; try lia.
      apply driver_voltage_order_le; lia.
    + apply (b64_leb_ltb_trans _ (b64_soc (b64_bus_voltage 13479)));
        [|vm_compute; reflexivity].
      apply driver_soc_follows_voltage; try lia.
      apply driver_voltage_order_le; lia.
Qed.

Lemma state_of_charge_thresholds_witness :
  (0 <? estimate_soc (Some 15.825%float))%float = true
  /\ (estimate_soc (Some 15.825%float) <? 100)%float = true.
Proof.
  destruct (state_of_charge_thresholds 12660 15.825%float) as [_ [_ Hmid]].
  - lia.
  - vm_compute. reflexivity.
  - apply Hmid. lia.
Defined.

(** X6: the shunt register is read as a signed 16-bit number: the current is
    negative exactly for the register values above 0x7FFF, and it stays
    within 0.82 A of zero. *)
Theorem shunt_current_sign (raw : Z) (c : float) :
  (0 <= raw < 65536)%Z ->
  measure_shunt_current (Some raw) = Some c ->
  (c <? 0)%float = (0x7FFF <? raw)%Z
  /\ (-0.8193 <=? c)%float = true /\ (c <=? 0.8192)%float = true.
Proof.
  intros Hraw. rewrite measure_shunt_current_b64. intros [= <-].
  destruct (Z.ltb_spec 0x7FFF raw) as [Hneg|Hpos].
  - assert (Hstep : (b64_shunt_current raw <? 0)%float = true
                    /\ (-0.8193 <=? b64_shunt_current raw)%float = true).
    { destruct (Z.eq_dec raw 65535) as [->|Hne]; [split; vm_compute; reflexivity|].
      pose proof (shunt_steps_high raw ltac:(lia)) as Hs.
      unfold shunt_step_high in Hs. rewrite !andb_true_iff in Hs. tauto. }
    destruct Hstep as [Hlt Hlow]. split; [exact Hlt|]. split; [exact Hlow|].
    apply b64_ltb_leb. apply (b64_ltb_leb_trans _ 0%float); [exact Hlt|].
    vm_compute. reflexivity.
  - assert (Hstep : (0 <=? b64_shunt_current raw)%float = true
                    /\ (b64_shunt_current raw <=? 0.8192)%float = true).
    { destruct (Z.eq_dec raw 0) as [->|Hne]; [split; vm_compute; reflexivity|].
      pose proof (shunt_steps_low (raw - 1) ltac:(lia)) as Hs.
      replace (raw - 1 + 1)%Z with raw in Hs by lia.
      unfold shunt_step_low in Hs. rewrite !andb_true_iff in Hs. tauto. }
    destruct Hstep as [Hge Hhigh]. split; [now apply b64_leb_not_ltb|].
    split; [|exact Hhigh].
    apply (b64_leb_trans _ 0%float); [vm_compute; reflexivity|exact Hge].
Qed.

Lemma shunt_current_sign_witness :
  ((-2.5e-05) <? 0)%float = (0x7FFF <? 65535)%Z.
Proof.
  apply (shunt_current_sign 65535 (-2.5e-05)%float); [lia|].
  vm_compute. reflexivity.
Defined.

(** ** The monitor, cycle by cycle *)

Section MonitorFacts.
Context {F : Type} `{PyFloat F}.

Lemma run_app (rs1 rs2 : list (@readings F)) :
  forall st : @monitor F,
  run st (rs1 ++ rs2) = (run st rs1 ++ run (final st rs1) rs2)%list.
Proof.
  induction rs1 as [|r rs1 IH]; intros st; [reflexivity|].
  cbn [app run]. now rewrite IH.
Qed.

Lemma invalid_cycle_calls (st : @monitor F) (r : @readings F) :
  let threshold := (FAILURE_THRESHOLD <=? S (consecutive_failures st))%nat in
  sensor_calls (snd (invalid_cycle st r)) =
    (if threshold then if present r then [ProbePresent; Reset; Configure]
                       else [ProbePresent]
     else [])
  /\ slept (snd (invalid_cycle st r)) =
       (if threshold && present r then 1500 else 1000).
Proof.
  unfold invalid_cycle. cbn [snd].
  destruct (sensor_connected st);
    destruct (FAILURE_THRESHOLD <=? S (consecutive_failures st))%nat;
    destruct (present r); split; reflexivity.
Qed.

Lemma valid_cycle_calls (st : @monitor F) (r : @readings F) (v : F) :
  (sensor_calls (snd (valid_cycle st r v)) = []
   /\ slept (snd (valid_cycle st r v)) = 1000)
  \/ (sensor_calls (snd (valid_cycle st r v)) =
        [Reset; Configure; ReadVoltage; ReadCurrent]
      /\ slept (snd (valid_cycle st r v)) = 1250
      /\ stable_count (fst (valid_cycle st r v)) = 0).
Proof.
  unfold valid_cycle. cbn [fst snd stable_count].
  match goal with |- context [(STABLE_THRESHOLD <=? ?n)%nat] =>
    destruct (STABLE_THRESHOLD <=? n)%nat end;
  match goal with |- context [if ?b then [Print "Battery Reconnected"] else _] =>
    destruct b end; cbn; auto.
Qed.

(** X7: every cycle reads both registers first; after that it either leaves
    the sensor alone, or probes it, or probes and reinitialises it, or
    reinitialises it and reads both registers again, and it sleeps 1 s,
    1.5 s with the first kind of reinitialisation and 1.25 s with the
    second: never two reinitialisations in one cycle. *)
Theorem cycle_shape (st : @monitor F) (r : @readings F) :
  In (sensor_calls (snd (cycle st r)), slept (snd (cycle st r)))
     [([ReadVoltage; ReadCurrent], 1000);
      ([ReadVoltage; ReadCurrent; ProbePresent], 1000);
      ([ReadVoltage; ReadCurrent; ProbePresent; Reset; Configure], 1500);
      ([ReadVoltage; ReadCurrent; Reset; Configure; ReadVoltage; ReadCurrent], 1250)].
Proof.
  destruct (invalid_reading (voltage r)) eqn:Hr.
  - rewrite (cycle_invalid _ _ Hr). cbn [snd].
    change (sensor_calls (ReadVoltage :: ReadCurrent :: ?l))
      with (ReadVoltage :: ReadCurrent :: sensor_calls l).
    change (slept (ReadVoltage :: ReadCurrent :: ?l)) with (slept l).
    destruct (invalid_cycle_calls st r) as [-> ->].
    destruct (FAILURE_THRESHOLD <=? S (consecutive_failures st))%nat;
      destruct (present r); cbn; auto.
  - destruct (cycle_valid st r Hr) as [v [_ ->]]. cbn [snd].
    change (sensor_calls (ReadVoltage :: ReadCurrent :: ?l))
      with (ReadVoltage :: ReadCurrent :: sensor_calls l).
    change (slept (ReadVoltage :: ReadCurrent :: ?l)) with (slept l).
    destruct (valid_cycle_calls st r v) as [[-> ->]|[-> [-> _]]]; cbn; auto.
Qed.

(** X8: while the presence probe fails, a run of invalid readings never
    reinitialises the sensor, however long it lasts, and every one of them
    is counted. *)
Theorem absent_sensor_is_never_reinitialised (rs : list (@readings F)) :
  forall st : @monitor F,
  Forall (fun r => invalid_reading (voltage r) = true /\ present r = false) rs ->
  Forall (fun c => ~ In Reset (snd c) /\ ~ In Configure (snd c)) (run st rs)
  /\ consecutive_failures (final st rs) = consecutive_failures st + List.length rs.
Proof.
  induction rs as [|r rs IH]; intros st Hall.
  - split; [constructor|cbn; lia].
  - inversion Hall as [|? ? [Hinv Hnot] Hrest]; subst.
    unfold final. cbn [run fold_left]. fold (final (fst (cycle st r)) rs).
    destruct (IH (fst (cycle st r)) Hrest) as [Hrun Hcount].
    rewrite Hcount. split.
    + constructor; [|exact Hrun].
      rewrite (cycle_invalid _ _ Hinv). cbn [snd].
      unfold invalid_cycle. cbn [snd]. rewrite Hnot, andb_false_r.
      destruct (sensor_connected st);
        destruct (FAILURE_THRESHOLD <=? S (consecutive_failures st))%nat;
        cbn; intuition discriminate.
    + rewrite (cycle_invalid _ _ Hinv). cbn [fst].
      unfold invalid_cycle. cbn [fst consecutive_failures].
      rewrite Hnot, andb_false_r. cbn [List.length]. lia.
Qed.

Lemma valid_cycle_counts (st : @monitor F) (r : @readings F) :
  invalid_reading (voltage r) = false ->
  valid_read_count (fst (cycle st r)) = S (valid_read_count st)
  /\ consecutive_failures (fst (cycle st r)) = 0
  /\ sensor_connected (fst (cycle st r)) =
       (sensor_connected st
        || (VALID_READ_COUNT_FOR_RECONNECT <=? S (valid_read_count st))%nat).
Proof.
  intros Hr. destruct (cycle_valid st r Hr) as [v [_ ->]].
  unfold valid_cycle. cbn [fst valid_read_count consecutive_failures sensor_connected].
  repeat split.
  destruct (sensor_connected st);
    destruct (VALID_READ_COUNT_FOR_RECONNECT <=? S (valid_read_count st))%nat;
    reflexivity.
Qed.

Lemma valid_run_connects (rs : list (@readings F)) :
  forall st : @monitor F,
  Forall (fun r => invalid_reading (voltage r) = false) rs ->
  valid_read_count (final st rs) = valid_read_count st + List.length rs
  /\ (rs <> [] ->
      sensor_connected st = true
      \/ VALID_READ_COUNT_FOR_RECONNECT <= valid_read_count st + List.length rs ->
      sensor_connected (final st rs) = true).
Proof.
  induction rs as [|r rs IH]; intros st Hall.
  - split; [cbn; lia|congruence].
  - inversion Hall as [|? ? Hr Hrest]; subst.
    unfold final. cbn [fold_left]. fold (final (fst (cycle st r)) rs).
    destruct (valid_cycle_counts st r Hr) as [Hcount [_ Hconn]].
    destruct (IH (fst (cycle st r)) Hrest) as [IHcount IHconn].
    rewrite IHcount, Hcount. cbn [List.length]. split; [lia|].
    intros _ Hstart. destruct rs as [|r' rs].
    + cbn [final fold_left]. rewrite Hconn.
      destruct Hstart as [->|Hle]; [reflexivity|].
      apply orb_true_iff. right. apply Nat.leb_le. cbn [List.length] in Hle. lia.
    + apply IHconn; [discriminate|].
      destruct Hstart as [Hc|Hle].
      * left. rewrite Hconn, Hc. reflexivity.
      * right. rewrite Hcount. cbn [List.length] in *. lia.
Qed.

(** X9: [VALID_READ_COUNT_FOR_RECONNECT] valid readings in a row, or more,
    always leave the monitor connected with no failure counted, whatever
    its state before. *)
Theorem consecutive_valid_reads_connect (st : @monitor F) (rs : list (@readings F)) :
  Forall (fun r => invalid_reading (voltage r) = false) rs ->
  VALID_READ_COUNT_FOR_RECONNECT <= List.length rs ->
  sensor_connected (final st rs) = true
  /\ consecutive_failures (final st rs) = 0.
Proof.
  intros Hall Hlen.
  assert (Hne : rs <> []).
  { intros ->. cbn in Hlen. unfold VALID_READ_COUNT_FOR_RECONNECT in Hlen. lia. }
  split.
  - apply valid_run_connects; [exact Hall|exact Hne|right; lia].
  - destruct (exists_last Hne) as [rs' [r ->]].
    apply Forall_app in Hall. destruct Hall as [_ Hlast].
    inversion Hlast as [|? ? Hr _]; subst.
    unfold final. rewrite fold_left_app. cbn [fold_left].
    now apply valid_cycle_counts.
Qed.

End MonitorFacts.

Lemma consecutive_valid_reads_connect_witness :
  sensor_connected (final initial_monitor [steady_readings; steady_readings]) = true
  /\ consecutive_failures (final initial_monitor [steady_readings; steady_readings]) = 0.
Proof.
  apply (consecutive_valid_reads_connect initial_monitor
           [steady_readings; steady_readings]).
  - repeat constructor.
  - unfold VALID_READ_COUNT_FOR_RECONNECT. cbn. lia.
Defined.

Lemma absent_sensor_is_never_reinitialised_witness :
  consecutive_failures
    (final initial_monitor
       (repeat {| voltage := None; current := None; present := false;
                  voltage_again := None; current_again := @None float |} 5))
  = 0 + 5.
Proof.
  apply (absent_sensor_is_never_reinitialised
           (repeat {| voltage := None; current := None; present := false;
                      voltage_again := None; current_again := @None float |} 5)
           initial_monitor).
  repeat constructor.
Defined.

(** ** Invariants, a steady battery, and the lines printed *)

Section MonitorInvariants.
Context {F : Type} `{PyFloat F}.

Lemma cycle_keeps_invariant (st : @monitor F) (r : @readings F) :
  monitor_invariant st -> monitor_invariant (fst (cycle st r)).
Proof.
  intros [Hsc [Hcv [Hconn [Hle Hlv]]]].
  destruct (invalid_reading (voltage r)) eqn:Hr.
  - rewrite (cycle_invalid _ _ Hr). unfold monitor_invariant, invalid_cycle.
    cbn [fst stable_count consecutive_failures valid_read_count
         sensor_connected last_voltage].
    unfold STABLE_THRESHOLD. repeat split; try lia; try discriminate.
  - destruct (cycle_valid st r Hr) as [v [_ ->]].
    unfold monitor_invariant, valid_cycle.
    cbn [fst stable_count consecutive_failures valid_read_count
         sensor_connected last_voltage].
    set (count := match last_voltage st with
                  | Some last =>
                      if (fabs (v - last) <? TOLERANCE)%py then S (stable_count st) else 0
                  | None => 0
                  end).
    assert (Hcount : count <= S (stable_count st)).
    { unfold count. destruct (last_voltage st);
        [destruct (fabs _ <? _)%py|]; lia. }
    assert (Hreconnect :
      (if negb (sensor_connected st) &&
          (VALID_READ_COUNT_FOR_RECONNECT <=? S (valid_read_count st))%nat
       then true else sensor_connected st) = true ->
      VALID_READ_COUNT_FOR_RECONNECT <= S (valid_read_count st)).
    { destruct (negb (sensor_connected st) &&
                (VALID_READ_COUNT_FOR_RECONNECT <=? S (valid_read_count st))%nat) eqn:Hre.
      - intros _. apply andb_true_iff in Hre. destruct Hre as [_ Hre].
        now apply Nat.leb_le in Hre.
      - intros Hc. destruct (Hconn Hc) as [_ Hv]. lia. }
    destruct (STABLE_THRESHOLD <=? count)%nat eqn:Hforced.
    + unfold STABLE_THRESHOLD. repeat split; try lia; auto.
    + apply Nat.leb_gt in Hforced.
      repeat split; try lia; try discriminate; auto.
Qed.

(** X10: after every cycle of every execution: the stability counter is below
    its threshold; one of the failure counter and the valid-read counter is
    0; a connected monitor has no failure counted and at least
    [VALID_READ_COUNT_FOR_RECONNECT] valid reads; the stability counter does
    not exceed the valid-read counter, and when it is positive a voltage is
    retained. *)
Theorem monitor_invariant_holds (rs : list (@readings F)) :
  monitor_invariant (final initial_monitor rs).
Proof.
  induction rs as [|r rs IH] using rev_ind.
  - unfold monitor_invariant, STABLE_THRESHOLD. cbn.
    repeat split; try lia; try discriminate.
  - rewrite final_app. cbn [final fold_left]. now apply cycle_keeps_invariant.
Qed.

Lemma steady_cycle (v : F) (c : option F) (st : @monitor F) :
  (v <? lit (1 # 10))%py = false ->
  (fabs (v - v) <? TOLERANCE)%py = true ->
  last_voltage st = Some v ->
  let forced := (STABLE_THRESHOLD <=? S (stable_count st))%nat in
  last_voltage (fst (cycle st (steady v c))) = Some v
  /\ stable_count (fst (cycle st (steady v c))) =
       (if forced then 0 else S (stable_count st))
  /\ sensor_calls (snd (cycle st (steady v c))) =
       ReadVoltage :: ReadCurrent ::
       (if forced then [Reset; Configure; ReadVoltage; ReadCurrent] else []).
Proof.
  intros Hvalid Htol Hlast. unfold cycle. cbn [voltage steady]. rewrite Hvalid.
  unfold valid_cycle. cbn [fst snd last_voltage stable_count voltage_again steady].
  rewrite Hlast, Htol.
  destruct (STABLE_THRESHOLD <=? S (stable_count st))%nat;
    destruct (negb (sensor_connected st) &&
              (VALID_READ_COUNT_FOR_RECONNECT <=? S (valid_read_count st))%nat);
    repeat split.
Qed.

(** X11: a sensor that keeps returning the same valid voltage is reinitialised
    in every third cycle, for as long as it does. *)
Theorem steady_voltage_reinitialises_every_third_cycle
    (v : F) (c : option F) (k : nat) :
  forall st : @monitor F,
  (v <? lit (1 # 10))%py = false ->
  (fabs (v - v) <? TOLERANCE)%py = true ->
  last_voltage st = Some v ->
  stable_count st = 0 ->
  map (fun c => sensor_calls (snd c)) (run st (repeat (steady v c) (3 * k))) =
    List.concat (repeat [[ReadVoltage; ReadCurrent]; [ReadVoltage; ReadCurrent];
                    [ReadVoltage; ReadCurrent; Reset; Configure;
                     ReadVoltage; ReadCurrent]] k)
  /\ last_voltage (final st (repeat (steady v c) (3 * k))) = Some v
  /\ stable_count (final st (repeat (steady v c) (3 * k))) = 0.
Proof.
  induction k as [|k IH]; intros st Hvalid Htol Hlast Hzero.
  - cbn. auto.
  - replace (3 * S k) with (3 + 3 * k) by lia.
    rewrite repeat_app, run_app, final_app, map_app.
    cbn [repeat app run map final fold_left List.concat].
    destruct (steady_cycle v c st Hvalid Htol Hlast) as [L1 [S1 C1]].
    rewrite Hzero in S1, C1. cbn in S1, C1.
    destruct (steady_cycle v c _ Hvalid Htol L1) as [L2 [S2 C2]].
    rewrite S1 in S2, C2. cbn in S2, C2.
    destruct (steady_cycle v c _ Hvalid Htol L2) as [L3 [S3 C3]].
    rewrite S2 in S3, C3. cbn in S3, C3.
    rewrite C1, C2, C3.
    destruct (IH _ Hvalid Htol L3 S3) as [IHrun [IHlast IHcount]].
    rewrite IHrun. auto.
Qed.

(** X12: "Battery Disconnected" is printed exactly in the cycles that take the
    monitor from connected to disconnected, and "Battery Reconnected"
    exactly in those that take it from disconnected to connected. *)
Theorem transitions_are_printed (st : @monitor F) (r : @readings F) :
  (In "Battery Disconnected" (printed (snd (cycle st r))) <->
   sensor_connected st = true /\ sensor_connected (fst (cycle st r)) = false)
  /\
  (In "Battery Reconnected" (printed (snd (cycle st r))) <->
   sensor_connected st = false /\ sensor_connected (fst (cycle st r)) = true).
Proof.
  destruct (invalid_reading (voltage r)) eqn:Hr.
  - rewrite (cycle_invalid _ _ Hr). unfold invalid_cycle.
    cbn [fst snd sensor_connected].
    destruct (sensor_connected st);
      destruct (FAILURE_THRESHOLD <=? S (consecutive_failures st))%nat;
      destruct (present r); cbn;
      intuition (try discriminate; try congruence).
  - destruct (cycle_valid st r Hr) as [v [_ ->]]. unfold valid_cycle.
    cbn [fst snd sensor_connected].
    match goal with |- context [(STABLE_THRESHOLD <=? ?n)%nat] =>
      destruct (STABLE_THRESHOLD <=? n)%nat end;
    destruct (sensor_connected st);
      destruct (VALID_READ_COUNT_FOR_RECONNECT <=? S (valid_read_count st))%nat;
      cbn; intuition (try discriminate; try congruence).
Qed.

End MonitorInvariants.

Lemma steady_voltage_reinitialises_every_third_cycle_witness :
  stable_count
    (final (final initial_monitor [steady 15%float (Some 0.5%float)])
           (repeat (steady 15%float (Some 0.5%float)) (3 * 2))) = 0.
Proof.
  apply (steady_voltage_reinitialises_every_third_cycle
           15%float (Some 0.5%float) 2
           (final initial_monitor [steady 15%float (Some 0.5%float)]));
    vm_compute; reflexivity.
Defined.

(** ** From the publisher to the histories *)

Lemma uint_is_digit (d : Decimal.uint) :
  Forall (fun c => is_digit c = true) (list_ascii_of_string (NilEmpty.string_of_uint d)).
Proof. induction d; cbn; constructor; auto. Qed.

Lemma digits_of_N_is_digit (n : N) :
  Forall (fun c => is_digit c = true) (digits_of_N n).
Proof.
  unfold digits_of_N, NilZero.string_of_uint.
  destruct (N.to_uint n); try apply uint_is_digit. repeat constructor.
Qed.

Lemma digits_value_uint_acc (d : Decimal.uint) :
  forall acc : positive,
  digits_value (list_ascii_of_string (NilEmpty.string_of_uint d)) (Zpos acc)
  = Zpos (Pos.of_uint_acc d acc).
Proof.
  induction d; intros acc; cbn [NilEmpty.string_of_uint list_ascii_of_string
                                digits_value fold_left Pos.of_uint_acc];
    try reflexivity;
    match goal with |- fold_left _ _ ?a = _ =>
      match goal with |- _ = Zpos (Pos.of_uint_acc _ ?b) =>
        replace a with (Zpos b)
          by (rewrite ?Pos2Z.inj_add, ?Pos2Z.inj_mul;
              match goal with |- context [digit_value ?c] =>
                let k := eval vm_compute in (digit_value c) in
                change (digit_value c) with k
              end; lia)
      end
    end; apply IHd.
Qed.

Lemma digits_value_uint (d : Decimal.uint) :
  digits_value (list_ascii_of_string (NilEmpty.string_of_uint d)) 0
  = Z.of_N (Pos.of_uint d).
Proof.
  induction d; cbn [NilEmpty.string_of_uint list_ascii_of_string
                    digits_value fold_left Pos.of_uint];
    try reflexivity; try exact IHd;
    match goal with |- fold_left _ _ ?a = Z.of_N (Npos (Pos.of_uint_acc _ ?b)) =>
      change a with (Zpos b)
    end; apply digits_value_uint_acc.
Qed.

Lemma digits_of_N_value (n : N) : digits_value (digits_of_N n) 0 = Z.of_N n.
Proof.
  unfold digits_of_N, NilZero.string_of_uint.
  rewrite <- (DecimalN.Unsigned.of_to n) at 2. unfold N.of_uint.
  destruct (N.to_uint n) eqn:E; try apply digits_value_uint.
  reflexivity.
Qed.

Lemma digits_of_N_nonempty (n : N) : digits_of_N n <> [].
Proof.
  unfold digits_of_N, NilZero.string_of_uint.
  destruct (N.to_uint n); discriminate.
Qed.

Lemma digits_value_app (a b : list ascii) (acc : Z) :
  digits_value (a ++ b) acc = digits_value b (digits_value a acc).
Proof. apply fold_left_app. Qed.

Lemma digits_value_zeros (k : nat) (l : list ascii) :
  digits_value (repeat "0"%char k ++ l) 0 = digits_value l 0.
Proof.
  rewrite digits_value_app. f_equal.
  induction k as [|k IH]; [reflexivity|]. cbn [repeat digits_value fold_left].
  exact IH.
Qed.

(** The digits before and after the point of [fixed_digits]. *)
Lemma fixed_digits_parts (d : nat) (n : Z) :
  (0 <= n)%Z ->
  exists ip fp : list ascii,
    fixed_digits d n = (ip ++ match d with O => [] | S _ => "."%char :: fp end)%list
    /\ ip <> [] /\ Forall (fun c => is_digit c = true) ip
    /\ Forall (fun c => is_digit c = true) fp
    /\ List.length fp = d
    /\ digits_value (ip ++ fp) 0 = n.
Proof.
  intros Hn. unfold fixed_digits.
  set (ds := (repeat "0"%char (S d - List.length (digits_of_N (Z.to_N n)))
              ++ digits_of_N (Z.to_N n))%list).
  assert (Hdigits : Forall (fun c => is_digit c = true) ds).
  { apply Forall_app. split; [|apply digits_of_N_is_digit].
    apply Forall_forall. intros c Hc. apply repeat_spec in Hc. now subst c. }
  assert (Hvalue : digits_value ds 0 = n).
  { unfold ds. rewrite digits_value_zeros, digits_of_N_value. now apply Z2N.id. }
  assert (Hlen : S d <= List.length ds).
  { unfold ds. rewrite length_app, repeat_length. lia. }
  destruct d as [|d].
  - exists ds, []. rewrite !app_nil_r. repeat split; auto.
    intros E. rewrite E in Hlen. cbn in Hlen. lia.
  - exists (firstn (List.length ds - S d) ds), (skipn (List.length ds - S d) ds).
    rewrite firstn_skipn. repeat split; auto.
    + intros E. apply (f_equal (@List.length ascii)) in E.
      rewrite length_firstn in E. cbn [List.length] in E. lia.
    + rewrite <- (firstn_skipn (List.length ds - S d) ds) in Hdigits.
      now apply Forall_app in Hdigits.
    + rewrite <- (firstn_skipn (List.length ds - S d) ds) in Hdigits.
      now apply Forall_app in Hdigits.
    + rewrite length_skipn. lia.
Qed.

Lemma scan_digits (l : list ascii) :
  Forall (fun c => is_digit c = true) l ->
  forall (rest : list ascii) (num frac : Z) (dot seen : bool),
  scan_decimal (l ++ rest) num frac dot seen =
  scan_decimal rest (digits_value l num)
               (if dot then frac + Z.of_nat (List.length l) else frac)%Z dot
               (match l with [] => seen | _ :: _ => true end).
Proof.
  induction 1 as [|c l Hc Hl IH]; intros rest num frac dot seen.
  - cbn. destruct dot; [now rewrite Z.add_0_r|reflexivity].
  - cbn [app scan_decimal]. rewrite Hc, IH. cbn [digits_value fold_left List.length].
    f_equal; [destruct dot; lia|now destruct l].
Qed.

Lemma scan_fixed_digits (d : nat) (n : Z) :
  (0 <= n)%Z ->
  scan_decimal (fixed_digits d n) 0 0 false false = Some (n, Z.of_nat d, true).
Proof.
  intros Hn.
  destruct (fixed_digits_parts d n Hn) as [ip [fp [-> [Hne [Hip [Hfp [Hlen Hval]]]]]]].
  rewrite (scan_digits ip Hip). destruct ip as [|c ip]; [congruence|].
  destruct d as [|d].
  - cbn [scan_decimal]. destruct fp; [|discriminate Hlen].
    rewrite app_nil_r in Hval. now rewrite Hval.
  - cbn [scan_decimal]. change (is_digit ".") with false.
    change (Ascii.eqb "." ".") with true. cbv iota.
    rewrite <- (app_nil_r fp), (scan_digits fp Hfp). cbn [scan_decimal].
    rewrite digits_value_app in Hval. rewrite Hval, Hlen.
    now destruct fp.
Qed.

Lemma round_half_even_nonneg (q : Q) : (0 <= q)%Q -> (0 <= round_half_even q)%Z.
Proof.
  intros Hq. unfold round_half_even.
  assert (Hf : (0 <= Qfloor q)%Z) by (change 0%Z with (Qfloor 0); now apply Qfloor_resp_le).
  destruct (Qcompare _ _); [destruct (Z.even _)| |]; lia.
Qed.

Lemma published_value_format {F : Type} `{PyFloat F} (d : nat) (x x' : F) :
  published_value d x = Some x' ->
  py_float (format_f d x) = inr x'
  /\ exists ip fp : list ascii,
       list_ascii_of_string (format_f d x)
       = (ip ++ match d with O => [] | S _ => "."%char :: fp end)%list
       /\ ip <> [] /\ Forall (fun c => is_digit c = true) ip
       /\ Forall (fun c => is_digit c = true) fp.
Proof.
  unfold published_value, format_f, py_float.
  destruct (view x) as [|s|s q]; try discriminate.
  destruct s; [discriminate|].
  destruct (Qle_bool 0 q) eqn:Hq; [|discriminate]. intros [= <-].
  apply Qle_bool_iff in Hq.
  assert (Hn : (0 <= round_half_even (q * inject_Z (10 ^ Z.of_nat d)))%Z).
  { apply round_half_even_nonneg. apply Qmult_le_0_compat; [exact Hq|].
    change 0%Q with (inject_Z 0). rewrite <- Zle_Qle. apply Z.pow_nonneg. lia. }
  rewrite list_ascii_of_string_of_list_ascii. split.
  - now rewrite (scan_fixed_digits d _ Hn).
  - destruct (fixed_digits_parts d _ Hn) as [ip [fp [E [Hne [Hip [Hfp _]]]]]].
    exists ip, fp. auto.
Qed.

Lemma strip_prefix_app (t s : list ascii) : strip_prefix t (t ++ s) = Some s.
Proof.
  induction t as [|c t IH]; [reflexivity|].
  cbn [app strip_prefix]. now rewrite Ascii.eqb_refl.
Qed.

Lemma match_star_skip (p : ascii -> bool) (k : list ascii -> option (list string))
    (s : list ascii) :
  head_fails p s -> match_star p k s = k s.
Proof. destruct s as [|c s]; cbn; [reflexivity|now intros ->]. Qed.

Lemma match_star_one (p : ascii -> bool) (k : list ascii -> option (list string))
    (c : ascii) (s : list ascii) :
  p c = true -> head_fails p s ->
  match_star p k (c :: s) =
  match k s with
  | Some groups => Some groups
  | None => k (c :: s)
  end.
Proof.
  intros Hc Hs. cbn [match_star]. rewrite Hc. now rewrite (match_star_skip p k s Hs).
Qed.

Lemma match_group_run (p : ascii -> bool) (k : list ascii -> option (list string))
    (run : list ascii) :
  Forall (fun c => p c = true) run ->
  forall (taken rest : list ascii) (groups : list string),
  (taken ++ run <> [])%list ->
  head_fails p rest ->
  k rest = Some groups ->
  match_group p k taken (run ++ rest) =
  Some (string_of_list_ascii (rev taken ++ run) :: groups).
Proof.
  induction 1 as [|c run Hc Hrun IH]; intros taken rest groups Hne Hrest Hk.
  - rewrite app_nil_r in *. cbn [app].
    destruct taken as [|t taken]; [congruence|].
    destruct rest as [|b rest]; cbn [match_group]; [|cbn in Hrest; rewrite Hrest];
      now rewrite Hk.
  - cbn [app match_group]. rewrite Hc.
    rewrite (IH (c :: taken) rest groups); [|discriminate|exact Hrest|exact Hk].
    cbn [rev]. now rewrite <- app_assoc.
Qed.

Lemma match_group_none (p : ascii -> bool) (k : list ascii -> option (list string))
    (run : list ascii) :
  forall (taken rest : list ascii),
  (forall n : nat, n <= List.length run -> k (skipn n run ++ rest)%list = None) ->
  head_fails p rest ->
  match_group p k taken (run ++ rest) = None.
Proof.
  induction run as [|c run IH]; intros taken rest Hk Hrest.
  - cbn [app]. pose proof (Hk 0 (Nat.le_refl _)) as Hk0. cbn in Hk0.
    destruct rest as [|b rest]; cbn [match_group]; [|cbn in Hrest; rewrite Hrest];
      rewrite Hk0; now destruct taken.
  - cbn [app match_group].
    pose proof (Hk 0 (Nat.le_0_l _)) as Hk0. cbn [skipn app] in Hk0. rewrite Hk0.
    rewrite IH; [now destruct (p c), taken| |exact Hrest].
    intros n Hn. apply (Hk (S n)). cbn [List.length]. lia.
Qed.

Lemma digit_or_dot_not_space (c : ascii) :
  is_digit_or_dot c = true -> is_space c = false.
Proof.
  destruct c as [[] [] [] [] [] [] [] []]; vm_compute; congruence.
Qed.

Lemma digit_is_digit_or_dot (c : ascii) : is_digit c = true -> is_digit_or_dot c = true.
Proof. unfold is_digit_or_dot. now intros ->. Qed.

Lemma head_fails_run (p q : ascii -> bool) (run rest : list ascii) :
  run <> [] -> Forall (fun c => q c = true) run ->
  (forall c, q c = true -> p c = false) ->
  head_fails p (run ++ rest).
Proof.
  intros Hne Hrun Himp. destruct run as [|c run]; [congruence|].
  cbn. apply Himp. now inversion Hrun.
Qed.

Section Stepping.

Variable items : list re_item.

Lemma lit_start (lit : string) (rest : list ascii) :
  match_here (Chars lit :: items) (list_ascii_of_string lit ++ rest) = match_here items rest.
Proof. cbn [match_here]. now rewrite strip_prefix_app. Qed.

Lemma star_space_lit (c : ascii) (lit : string) (rest : list ascii) :
  is_space c = false ->
  match_here (Star is_space :: Chars (String c lit) :: items)
             (" "%char :: list_ascii_of_string (String c lit) ++ rest)
  = match_here items rest.
Proof.
  intros Hc. cbn [match_here].
  rewrite match_star_one; [|reflexivity|exact Hc].
  rewrite strip_prefix_app.
  destruct (match_here items rest); [reflexivity|].
  cbn [list_ascii_of_string strip_prefix].
  destruct (Ascii.eqb_spec c " "); [subst c; discriminate Hc|reflexivity].
Qed.

Lemma star_space_group (run rest : list ascii) (groups : list string) :
  run <> [] -> Forall (fun c => is_digit_or_dot c = true) run ->
  head_fails is_digit_or_dot rest ->
  match_here items rest = Some groups ->
  match_here (Star is_space :: Group is_digit_or_dot :: items)
             (" "%char :: run ++ rest)
  = Some (string_of_list_ascii run :: groups).
Proof.
  intros Hne Hrun Hrest Hk. cbn [match_here].
  rewrite match_star_one;
    [|reflexivity|apply (head_fails_run _ is_digit_or_dot); auto using digit_or_dot_not_space].
  rewrite (match_group_run _ _ run Hrun [] rest groups); auto.
Qed.

Lemma star_space_no_group (b : ascii) (t : list ascii) :
  is_space b = false -> is_digit_or_dot b = false ->
  match_here (Star is_space :: Group is_digit_or_dot :: items) (" "%char :: b :: t)
  = None.
Proof.
  intros Hs Hd. cbn [match_here].
  rewrite match_star_one; [|reflexivity|exact Hs].
  cbn [match_group]. rewrite Hd. reflexivity.
Qed.

End Stepping.

Lemma match_message_chars (a b c : list ascii) :
  a <> [] -> b <> [] -> c <> [] ->
  Forall (fun x => is_digit_or_dot x = true) a ->
  Forall (fun x => is_digit_or_dot x = true) b ->
  Forall (fun x => is_digit_or_dot x = true) c ->
  match_here message_pattern (message_chars a b c)
  = Some [string_of_list_ascii a; string_of_list_ascii b; string_of_list_ascii c].
Proof.
  intros Ha Hb Hc Fa Fb Fc. unfold message_pattern, message_chars.
  rewrite lit_start.
  apply star_space_group; [exact Ha|exact Fa|reflexivity|].
  rewrite star_space_lit by reflexivity.
  rewrite star_space_lit by reflexivity.
  apply star_space_group; [exact Hb|exact Fb|reflexivity|].
  rewrite star_space_lit by reflexivity.
  rewrite star_space_lit by reflexivity.
  apply star_space_group; [exact Hc|exact Fc|reflexivity|].
  reflexivity.
Qed.

Lemma search_from_here (items : list re_item) (s : list ascii) (groups : list string) :
  match_here items s = Some groups -> search_from items s = Some groups.
Proof. intros Hm. destruct s; cbn [search_from]; now rewrite Hm. Qed.

Lemma numeric_message_chars {F : Type} `{PyFloat F} (v c s : F) :
  list_ascii_of_string (numeric_message v c s) =
  message_chars (list_ascii_of_string (format_f 3 v))
                (list_ascii_of_string (format_f 6 c))
                (list_ascii_of_string (format_f 1 s)).
Proof. unfold numeric_message. rewrite !chars_app. reflexivity. Qed.

Lemma published_value_chars {F : Type} `{PyFloat F} (d : nat) (x x' : F) :
  published_value d x = Some x' ->
  list_ascii_of_string (format_f d x) <> []
  /\ Forall (fun c => is_digit_or_dot c = true) (list_ascii_of_string (format_f d x)).
Proof.
  intros Hp. destruct (published_value_format d x x' Hp)
    as [_ [ip [fp [-> [Hne [Hip Hfp]]]]]].
  split; [destruct ip; [congruence|discriminate]|].
  apply Forall_app. split.
  - eapply Forall_impl; [|exact Hip]. apply digit_is_digit_or_dot.
  - destruct d; [constructor|]. constructor; [reflexivity|].
    eapply Forall_impl; [|exact Hfp]. apply digit_is_digit_or_dot.
Qed.

Lemma numeric_message_parsed {F : Type} `{PyFloat F} (v c s v' c' s' : F) :
  published_value 3 v = Some v' ->
  published_value 6 c = Some c' ->
  published_value 1 s = Some s' ->
  parse_message (numeric_message v c s) = Some (v', c', s').
Proof.
  intros Hv Hc Hs.
  destruct (published_value_chars 3 v v' Hv) as [Nv Fv].
  destruct (published_value_chars 6 c c' Hc) as [Nc Fc].
  destruct (published_value_chars 1 s s' Hs) as [Ns Fs].
  unfold parse_message, re_search.
  rewrite numeric_message_chars.
  rewrite (search_from_here _ _ _ (match_message_chars _ _ _ Nv Nc Ns Fv Fc Fs)).
  rewrite !string_of_list_ascii_of_string.
  destruct (published_value_format 3 v v' Hv) as [-> _].
  destruct (published_value_format 6 c c' Hc) as [-> _].
  destruct (published_value_format 1 s s' Hs) as [-> _].
  reflexivity.
Qed.

(** *** Messages that do not match *)
Lemma match_here_needs_V (c : ascii) (s : list ascii) :
  c <> "V"%char -> match_here message_pattern (c :: s) = None.
Proof.
  intros Hc. unfold message_pattern. cbn [match_here list_ascii_of_string strip_prefix].
  destruct (Ascii.eqb_spec "V" c); [congruence|reflexivity].
Qed.

Lemma search_skip (run rest : list ascii) :
  Forall (fun c => c <> "V"%char) run ->
  search_from message_pattern (run ++ rest) = search_from message_pattern rest.
Proof.
  induction 1 as [|c run Hc Hrun IH]; [reflexivity|].
  cbn [app search_from]. now rewrite (match_here_needs_V c _ Hc).
Qed.

Lemma alphabet_not_V (c : ascii) : In c format_alphabet -> c <> "V"%char.
Proof. cbn. intuition (subst; discriminate). Qed.

Lemma alphabet_not_space (c : ascii) : In c format_alphabet -> is_space c = false.
Proof. cbn. intuition (subst; reflexivity). Qed.

Lemma format_f_no_V {F : Type} `{PyFloat F} (d : nat) (x : F) :
  Forall (fun c => c <> "V"%char) (list_ascii_of_string (format_f d x)).
Proof.
  apply Forall_forall. intros c Hc. now apply alphabet_not_V, (format_f_chars d x).
Qed.

Lemma format_f_nonempty {F : Type} `{PyFloat F} (d : nat) (x : F) :
  list_ascii_of_string (format_f d x) <> [].
Proof.
  unfold format_f. destruct (view x) as [|s|s q]; try discriminate.
  - destruct s; discriminate.
  - rewrite list_ascii_of_string_of_list_ascii. destruct s; [discriminate|].
    unfold fixed_digits.
    set (ds := (repeat "0"%char _ ++ digits_of_N _)%list).
    assert (Hds : ds <> []).
    { unfold ds. intros E. apply app_eq_nil in E. destruct E as [_ E].
      now apply digits_of_N_nonempty in E. }
    destruct d; [exact Hds|].
    intros E. apply app_eq_nil in E. destruct E as [_ E]. discriminate E.
Qed.

(** The text after the voltage, when what stands for the current begins
    with [b], a character that is neither a space nor a digit nor a dot. *)
Lemma no_match_after_voltage (b : ascii) (t : list ascii) (items : list re_item) :
  is_space b = false -> is_digit_or_dot b = false ->
  match_here (Star is_space :: Chars "V," :: Star is_space :: Chars "Current:"
              :: Star is_space :: Group is_digit_or_dot :: items)
             (" "%char :: list_ascii_of_string "V," ++ " "%char
              :: list_ascii_of_string "Current:" ++ " "%char :: b :: t)
  = None.
Proof.
  intros Hs Hd.
  rewrite star_space_lit by reflexivity.
  rewrite star_space_lit by reflexivity.
  now apply star_space_no_group.
Qed.

Lemma no_match_at_start (a : list ascii) (b : ascii) (t : list ascii) :
  a <> [] ->
  Forall (fun c => In c format_alphabet) a ->
  is_space b = false -> is_digit_or_dot b = false ->
  match_here message_pattern
    (list_ascii_of_string "Voltage:" ++ " "%char :: a ++ " "%char
     :: list_ascii_of_string "V," ++ " "%char
     :: list_ascii_of_string "Current:" ++ " "%char :: b :: t)
  = None.
Proof.
  intros Ha Fa Hs Hd. unfold message_pattern. rewrite lit_start.
  cbn [match_here].
  rewrite match_star_one; [|reflexivity|].
  2:{ destruct a as [|c a]; [congruence|]. cbn.
      apply alphabet_not_space. now inversion Fa. }
  assert (Hgroup :
    match_group is_digit_or_dot
      (match_here (Star is_space :: Chars "V," :: Star is_space :: Chars "Current:"
                   :: Star is_space :: Group is_digit_or_dot
                   :: Star is_space :: Chars "A," :: Star is_space :: Chars "SoC:"
                   :: Star is_space :: Group is_digit_or_dot :: Chars "%" :: nil))
      [] (a ++ " "%char :: list_ascii_of_string "V," ++ " "%char
          :: list_ascii_of_string "Current:" ++ " "%char :: b :: t) = None).
  { apply match_group_none; [|reflexivity].
    intros n Hn. destruct (skipn n a) as [|c a'] eqn:E.
    - cbn [app]. now apply no_match_after_voltage.
    - assert (Hc : In c format_alphabet).
      { assert (Hin : In c (skipn n a)) by (rewrite E; now left).
        rewrite <- (firstn_skipn n a) in Fa. apply Forall_app in Fa.
        destruct Fa as [_ Fa]. rewrite Forall_forall in Fa. now apply Fa. }
      cbn [app match_here].
      rewrite match_star_skip by (cbn; now apply alphabet_not_space).
      cbn [list_ascii_of_string strip_prefix].
      destruct (Ascii.eqb_spec "V" c); [|reflexivity].
      subst c. now apply alphabet_not_V in Hc. }
  cbn [match_here] in Hgroup. rewrite Hgroup.
  cbn [match_group]. reflexivity.
Qed.

Lemma search_from_cons_none (c : ascii) (s : list ascii) :
  match_here message_pattern (c :: s) = None ->
  search_from message_pattern s = None ->
  search_from message_pattern (c :: s) = None.
Proof. intros Hm Hs. cbn [search_from]. now rewrite Hm. Qed.

Lemma search_from_app_none (run rest : list ascii) :
  Forall (fun c => c <> "V"%char) run ->
  search_from message_pattern rest = None ->
  search_from message_pattern (run ++ rest) = None.
Proof. intros Hrun Hrest. now rewrite search_skip. Qed.

(** A message with anything but a number for the current is not matched
    anywhere. *)
Lemma no_match_without_current (a : list ascii) (b : ascii) (t : list ascii) :
  a <> [] ->
  Forall (fun c => In c format_alphabet) a ->
  is_space b = false -> is_digit_or_dot b = false ->
  Forall (fun c => c <> "V"%char) (b :: t) ->
  search_from message_pattern
    (list_ascii_of_string "Voltage:" ++ " "%char :: a ++ " "%char
     :: list_ascii_of_string "V," ++ " "%char
     :: list_ascii_of_string "Current:" ++ " "%char :: b :: t)
  = None.
Proof.
  intros Ha Fa Hs Hd Ft.
  apply search_from_cons_none; [exact (no_match_at_start a b t Ha Fa Hs Hd)|].
  apply (search_from_app_none (list_ascii_of_string "oltage: "));
    [repeat constructor; discriminate|].
  apply search_from_app_none;
    [eapply Forall_impl; [|exact Fa]; apply alphabet_not_V|].
  apply search_from_cons_none; [apply match_here_needs_V; discriminate|].
  apply search_from_cons_none; [reflexivity|].
  apply (search_from_app_none (list_ascii_of_string ", Current: "));
    [repeat constructor; discriminate|].
  rewrite <- (app_nil_r (b :: t)).
  apply search_from_app_none; [exact Ft|reflexivity].
Qed.

Lemma format_f_bad_head {F : Type} `{PyFloat F} (d : nat) (x : F) :
  sign_clear_finite x = false ->
  exists (b : ascii) (t : list ascii),
    list_ascii_of_string (format_f d x) = b :: t
    /\ is_space b = false /\ is_digit_or_dot b = false.
Proof.
  unfold sign_clear_finite, format_f. destruct (view x) as [|s|s q].
  - intros _. exists "n"%char, (list_ascii_of_string "an"). repeat split.
  - intros _. destruct s.
    + exists "-"%char, (list_ascii_of_string "inf"). repeat split.
    + exists "i"%char, (list_ascii_of_string "nf"). repeat split.
  - destruct s; [intros _|discriminate].
    rewrite list_ascii_of_string_of_list_ascii.
    eexists. eexists. repeat split.
Qed.

Lemma no_V_literal (s : string) :
  forallb (fun c => negb (Ascii.eqb c "V")) (list_ascii_of_string s) = true ->
  Forall (fun c => c <> "V"%char) (list_ascii_of_string s).
Proof.
  intros Hs. apply Forall_forall. intros c Hc.
  rewrite forallb_forall in Hs. specialize (Hs c Hc).
  apply negb_true_iff in Hs. now apply Ascii.eqb_neq in Hs.
Qed.

Lemma unreadable_current_no_match {F : Type} `{PyFloat F}
    (st : @monitor F) (r : @readings F) :
  invalid_reading (voltage r) = false ->
  (forall c : F, current r = Some c -> sign_clear_finite c = false) ->
  exists msg : string,
    sent (snd (cycle st r)) = [msg]
    /\ re_search message_pattern msg = None.
Proof.
  intros Hr Hcur. destruct (cycle_valid st r Hr) as [v [Hv Hc]].
  eexists. split; [rewrite Hc; cbn [snd sent flat_map]; apply valid_cycle_sent|].
  unfold re_search, publish_str.
  rewrite !chars_app, <- !app_assoc.
  assert (Hsoc : Forall (fun c => c <> "V"%char)
            (list_ascii_of_string ", SoC: "
             ++ list_ascii_of_string (format_f 1 (estimate_soc (Some v)))
             ++ list_ascii_of_string "%")).
  { apply Forall_app. split; [apply no_V_literal; reflexivity|].
    apply Forall_app. split; [apply format_f_no_V|apply no_V_literal; reflexivity]. }
  destruct (current r) as [c|] eqn:Ec.
  - destruct (format_f_bad_head 6 c (Hcur c eq_refl)) as [b [t [Eb [Hs Hd]]]].
    rewrite !chars_app, <- !app_assoc, Eb.
    apply (no_match_without_current
             (list_ascii_of_string (format_f 3 v)) b
             (t ++ list_ascii_of_string " A" ++ list_ascii_of_string ", SoC: "
                ++ list_ascii_of_string (format_f 1 (estimate_soc (Some v)))
                ++ list_ascii_of_string "%")%list);
      [apply format_f_nonempty| |exact Hs|exact Hd|].
    + apply Forall_forall. intros x. apply format_f_chars.
    + change (b :: t ++ ?rest)%list with ((b :: t) ++ rest)%list.
      apply Forall_app. split; [rewrite <- Eb; apply format_f_no_V|].
      apply Forall_app. split; [apply no_V_literal; reflexivity|exact Hsoc].
  - apply (no_match_without_current
             (list_ascii_of_string (format_f 3 v)) "N"%char
             (list_ascii_of_string "/A" ++ list_ascii_of_string ", SoC: "
                ++ list_ascii_of_string (format_f 1 (estimate_soc (Some v)))
                ++ list_ascii_of_string "%")%list);
      [apply format_f_nonempty| |reflexivity|reflexivity|].
    + apply Forall_forall. intros x. apply format_f_chars.
    + constructor; [discriminate|].
      apply Forall_app. split; [apply no_V_literal; reflexivity|exact Hsoc].
Qed.

Lemma match_star_some (p : ascii -> bool) (k : list ascii -> option (list string))
    (s : list ascii) (groups : list string) :
  match_star p k s = Some groups -> exists s' : list ascii, k s' = Some groups.
Proof.
  induction s as [|c s IH]; cbn [match_star]; [eauto|].
  destruct (p c); [|eauto].
  destruct (match_star p k s) eqn:E; [|eauto].
  intros [= <-]. now apply IH.
Qed.

Lemma match_group_some (p : ascii -> bool) (k : list ascii -> option (list string))
    (s : list ascii) :
  forall (taken : list ascii) (groups : list string),
  forallb p taken = true ->
  match_group p k taken s = Some groups ->
  exists (g : string) (rest : list string) (s' : list ascii),
    groups = g :: rest /\ group_ok p g /\ k s' = Some rest.
Proof.
  assert (Hstop : forall (taken s0 : list ascii) (groups : list string),
            forallb p taken = true ->
            match taken with
            | [] => None
            | _ :: _ =>
                match k s0 with
                | Some groups => Some (string_of_list_ascii (rev taken) :: groups)
                | None => None
                end
            end = Some groups ->
            exists (g : string) (rest : list string) (s' : list ascii),
              groups = g :: rest /\ group_ok p g /\ k s' = Some rest).
  { intros taken s0 groups Ht Hs. destruct taken as [|t taken]; [discriminate|].
    destruct (k s0) as [rest|] eqn:Ek; [|discriminate]. injection Hs as <-.
    exists (string_of_list_ascii (rev (t :: taken))), rest, s0.
    split; [reflexivity|]. split; [|exact Ek]. split.
    - cbn [rev]. destruct (rev taken); discriminate.
    - rewrite list_ascii_of_string_of_list_ascii.
      rewrite forallb_forall in *. intros x Hx. apply Ht. now apply in_rev. }
  induction s as [|c s IH]; intros taken groups Ht; cbn [match_group].
  - now apply Hstop.
  - destruct (p c) eqn:Hc; [|now apply Hstop].
    destruct (match_group p k (c :: taken) s) eqn:E; [|now apply Hstop].
    intros [= <-]. apply (IH (c :: taken)); [|exact E].
    cbn [forallb]. now rewrite Hc.
Qed.

Lemma match_here_groups (items : list re_item) :
  forall (s : list ascii) (groups : list string),
  match_here items s = Some groups ->
  Forall2 group_ok (group_classes items) groups.
Proof.
  induction items as [|item items IH]; intros s groups; cbn [match_here group_classes].
  - intros [= <-]. constructor.
  - destruct item as [text|p|p].
    + destruct (strip_prefix _ s); [apply IH|discriminate].
    + intros Hm. apply match_star_some in Hm. destruct Hm as [s' Hm]. now apply IH in Hm.
    + intros Hm. apply match_group_some in Hm; [|reflexivity].
      destruct Hm as [g [rest [s' [-> [Hg Hk]]]]]. constructor; [exact Hg|].
      now apply IH in Hk.
Qed.

Lemma search_from_some (items : list re_item) (s : list ascii) (groups : list string) :
  search_from items s = Some groups ->
  exists s' : list ascii, match_here items s' = Some groups.
Proof.
  induction s as [|c s IH]; cbn [search_from].
  - destruct (match_here items []) eqn:E; [|discriminate]. intros [= <-]. eauto.
  - destruct (match_here items (c :: s)) eqn:E; [intros [= <-]; eauto|exact IH].
Qed.

Lemma scan_decimal_spec (l : list ascii) :
  forallb is_digit_or_dot l = true ->
  forall (num frac : Z) (dot seen : bool),
  match scan_decimal l num frac dot seen with
  | Some (_, _, seen') =>
      dot_count l + (if dot then 1 else 0) <= 1
      /\ seen' = seen || existsb is_digit l
  | None => 2 <= dot_count l + (if dot then 1 else 0)
  end.
Proof.
  induction l as [|c l IH]; intros Hl num frac dot seen.
  - cbn. rewrite orb_false_r. destruct dot; split; (lia || reflexivity).
  - cbn [forallb] in Hl. apply andb_true_iff in Hl. destruct Hl as [Hc Hl].
    cbn [scan_decimal existsb]. unfold dot_count. cbn [count_occ].
    destruct (is_digit c) eqn:Hd.
    + assert (Hne : c <> "."%char) by (intros ->; discriminate Hd).
      destruct (ascii_dec c "."); [congruence|]. fold (dot_count l).
      specialize (IH Hl (10 * num + digit_value c)%Z
                     (if dot then (frac + 1)%Z else frac) dot true).
      destruct (scan_decimal l _ _ dot true) as [[[n1 f1] sn1]|]; [|exact IH].
      destruct IH as [IH1 IH2]. split; [exact IH1|].
      rewrite IH2. now rewrite orb_true_r.
    + unfold is_digit_or_dot in Hc. rewrite Hd in Hc. cbn in Hc. rewrite Hc.
      apply Ascii.eqb_eq in Hc. subst c.
      destruct (ascii_dec "." "."); [|congruence]. fold (dot_count l).
      destruct dot.
      * lia.
      * specialize (IH Hl num frac true seen).
        destruct (scan_decimal l num frac true seen) as [[[n1 f1] sn1]|].
        -- destruct IH as [IH1 IH2]. split; [lia|exact IH2].
        -- lia.
Qed.

Lemma py_float_text {F : Type} `{PyFloat F} (g : string) :
  forallb is_digit_or_dot (list_ascii_of_string g) = true ->
  if float_text g then exists x : F, py_float g = inr x
  else py_float (F := F) g = inl ValueError.
Proof.
  intros Hg. unfold float_text, py_float.
  pose proof (scan_decimal_spec _ Hg 0%Z 0%Z false false) as Hs.
  destruct (scan_decimal (list_ascii_of_string g) 0 0 false false)
    as [[[num frac] seen]|].
  - destruct Hs as [Hd ->]. cbn [orb].
    replace (dot_count (list_ascii_of_string g) <=? 1)%nat with true
      by (symmetry; apply Nat.leb_le; lia).
    cbn [andb]. destruct (existsb is_digit (list_ascii_of_string g)); eauto.
  - replace (dot_count (list_ascii_of_string g) <=? 1)%nat with false
      by (symmetry; apply Nat.leb_gt; lia).
    reflexivity.
Qed.

Lemma message_pattern_groups (msg : string) (groups : list string) :
  re_search message_pattern msg = Some groups ->
  exists g1 g2 g3 : string,
    groups = [g1; g2; g3]
    /\ group_ok is_digit_or_dot g1
    /\ group_ok is_digit_or_dot g2
    /\ group_ok is_digit_or_dot g3.
Proof.
  unfold re_search. intros Hs. apply search_from_some in Hs.
  destruct Hs as [s' Hm]. apply match_here_groups in Hm.
  cbn [message_pattern group_classes] in Hm.
  inversion Hm as [|p1 g1 ps1 gs1 H1 Hm1]; subst.
  inversion Hm1 as [|p2 g2 ps2 gs2 H2 Hm2]; subst.
  inversion Hm2 as [|p3 g3 ps3 gs3 H3 Hm3]; subst.
  inversion Hm3; subst.
  exists g1, g2, g3. repeat split; assumption || apply H1 || apply H2 || apply H3.
Qed.

(** X13: a match of the message pattern always captures exactly three texts,
    each non-empty and made of digits and dots only. *)
Theorem message_match_captures_three_numbers (msg : string) (groups : list string) :
  re_search message_pattern msg = Some groups ->
  exists g1 g2 g3 : string,
    groups = [g1; g2; g3]
    /\ Forall (fun g => g <> ""
                        /\ forallb is_digit_or_dot (list_ascii_of_string g) = true)
              groups.
Proof.
  intros Hs. destruct (message_pattern_groups msg groups Hs)
    as [g1 [g2 [g3 [-> [H1 [H2 H3]]]]]].
  exists g1, g2, g3. split; [reflexivity|].
  repeat constructor; apply H1 || apply H2 || apply H3.
Qed.

Lemma message_match_captures_three_numbers_witness :
  exists g1 g2 g3 : string,
    ["15.000"; "0.500000"; "62.5"] = [g1; g2; g3]
    /\ Forall (fun g => g <> ""
                        /\ forallb is_digit_or_dot (list_ascii_of_string g) = true)
              ["15.000"; "0.500000"; "62.5"].
Proof.
  apply (message_match_captures_three_numbers
           "Voltage: 15.000 V, Current: 0.500000 A, SoC: 62.5%").
  vm_compute. reflexivity.
Defined.

(** X14: a message that matches is dropped exactly when one of the three
    captured texts has two dots or more, or no digit. *)
Theorem matched_message_is_dropped_on_a_bad_number {F : Type} `{PyFloat F}
    (msg g1 g2 g3 : string) :
  re_search message_pattern msg = Some [g1; g2; g3] ->
  (parse_message (F := F) msg = None
   <-> float_text g1 && float_text g2 && float_text g3 = false)
  /\ (float_text g1 && float_text g2 && float_text g3 = true ->
      exists v c s : F,
        py_float g1 = inr v /\ py_float g2 = inr c /\ py_float g3 = inr s
        /\ parse_message msg = Some (v, c, s)).
Proof.
  intros Hs. destruct (message_pattern_groups msg _ Hs)
    as [a [b [c [E [[_ H1] [[_ H2] [_ H3]]]]]]].
  injection E as <- <- <-.
  pose proof (py_float_text (F := F) g1 H1) as P1.
  pose proof (py_float_text (F := F) g2 H2) as P2.
  pose proof (py_float_text (F := F) g3 H3) as P3.
  unfold parse_message. rewrite Hs.
  destruct (float_text g1); [destruct P1 as [x1 ->]|rewrite P1];
  (destruct (float_text g2); [destruct P2 as [x2 ->]|rewrite P2]);
  (destruct (float_text g3); [destruct P3 as [x3 ->]|rewrite P3]);
  cbn [andb]; (split; [split; (reflexivity || discriminate)|]);
  try discriminate.
  intros _. exists x1, x2, x3. repeat split; reflexivity.
Qed.

Lemma matched_message_is_dropped_on_a_bad_number_witness :
  parse_message (F := float) "Voltage: 1.2.3 V, Current: 0.5 A, SoC: 60%" = None.
Proof.
  apply (matched_message_is_dropped_on_a_bad_number
           (F := float) "Voltage: 1.2.3 V, Current: 0.5 A, SoC: 60%"
           "1.2.3" "0.5" "60").
  - vm_compute. reflexivity.
  - vm_compute. reflexivity.
Defined.

Section HistoryFacts.

Context {F : Type} `{PyFloat F}.

Lemma last_n_snoc {A : Type} (l : list A) (x : A) :
  (if (300 <? List.length (last_n 300 l ++ [x]))%nat
   then last_n 300 (last_n 300 l ++ [x])
   else last_n 300 l ++ [x])%list
  = last_n 300 (l ++ [x]).
Proof.
  destruct (Nat.le_gt_cases (List.length l) 299) as [Hshort|Hlong].
  - rewrite (last_n_short 300 l) by lia.
    rewrite (last_n_short 300 (l ++ [x])) by (rewrite length_app; cbn; lia).
    replace (300 <? List.length (l ++ [x]))%nat with false; [reflexivity|].
    symmetry. apply Nat.ltb_ge. rewrite length_app. cbn. lia.
  - assert (Hlen : List.length (last_n 300 l) = 300)
      by (apply length_last_n; lia).
    replace (300 <? List.length (last_n 300 l ++ [x]))%nat with true
      by (symmetry; apply Nat.ltb_lt; rewrite length_app, Hlen; cbn; lia).
    rewrite (last_n_full_snoc 300 _ x Hlen) by lia.
    unfold last_n. rewrite length_app. cbn [List.length].
    replace (List.length l + 1 - 300) with (S (List.length l - 300)) by lia.
    rewrite skipn_app.
    replace (S (List.length l - 300) - List.length l) with 0 by lia.
    cbn [skipn]. f_equal.
    remember (List.length l - 300) as k eqn:Hk.
    assert (Hkl : k < List.length l) by lia.
    clear - Hkl. revert k Hkl.
    induction l as [|a l IH]; intros k Hkl; [cbn in Hkl; lia|].
    destruct k as [|k]; [reflexivity|].
    cbn [skipn]. cbn [List.length] in Hkl.
    rewrite <- (IH k) by lia. reflexivity.
Qed.

Lemma smoothed_app (a b : list F) :
  forall previous : option F,
  smoothed previous (a ++ b)
  = (smoothed previous a ++ smoothed (last_filtered previous (smoothed previous a)) b)%list.
Proof.
  induction a as [|x a IH]; intros previous; [reflexivity|].
  cbn [app smoothed]. rewrite IH. cbn [app]. f_equal. f_equal. f_equal.
  unfold last_filtered. cbn [rev].
  destruct (rev (smoothed (Some (smooth previous x)) a)); reflexivity.
Qed.

Lemma last_filtered_snoc (previous : option F) (l : list F) (x : F) :
  last_filtered previous (l ++ [x]) = Some x.
Proof. unfold last_filtered. now rewrite rev_app_distr. Qed.

Lemma record_sample_holds (now0 : F) (w : @main_window F)
    (ss : list (F * (F * F * F))) (now v c s : F) :
  holds now0 w ss ->
  holds now0 (fst (record_sample w now v c s)) (ss ++ [(now, (v, c, s))]).
Proof.
  intros [Hmax [Hstart [Ht [Hv [Hc [Hs Hf]]]]]]. unfold record_sample.
  match goal with |- holds _ (fst (update_time_left ?w0 ?a ?b)) _ =>
    destruct (update_time_left_keeps w0 a b)
      as [Et [Ev [Ec [Es [Em [Ef [Est _]]]]]]];
    unfold holds; rewrite Et, Ev, Ec, Es, Em, Ef, Est
  end.
  cbn [time_data voltage_data current_data soc_data max_points filtered_soc
       start_time].
  rewrite !map_app. cbn [map].
  rewrite smoothed_app. cbn [smoothed]. rewrite last_filtered_snoc.
  rewrite <- Hf.
  assert (Hlen : forall (A : Type) (l : list A) (x : A),
            List.length (last_n 300 l ++ [x]) = Nat.min 300 (List.length l) + 1).
  { intros A l x. rewrite length_app. cbn [List.length].
    destruct (Nat.le_gt_cases (List.length l) 300).
    - rewrite last_n_short by lia. lia.
    - rewrite length_last_n by lia. lia. }
  rewrite Hmax, Hstart, Ht, Hv, Hc, Hs.
  split; [reflexivity|]. split; [reflexivity|].
  rewrite <- (last_n_snoc (map (sample_time now0) ss)).
  rewrite <- (last_n_snoc (map sample_voltage ss)).
  rewrite <- (last_n_snoc (map sample_current ss)).
  rewrite <- (last_n_snoc (smoothed None (map sample_soc ss))).
  rewrite !Hlen, !length_map.
  assert (Hsl : forall (p : option F) (l : list F),
            List.length (smoothed p l) = List.length l).
  { intros p l. revert p. induction l as [|x l IH]; intros p; [reflexivity|].
    cbn [smoothed List.length]. now rewrite IH. }
  rewrite Hsl, length_map.
  repeat split; reflexivity.
Qed.

Lemma receive_holds (now0 : F) (msgs : list (F * string)) :
  forall (w : @main_window F) (ss : list (F * (F * F * F))),
  holds now0 w ss -> holds now0 (receive w msgs) (ss ++ samples msgs).
Proof.
  induction msgs as [|[now msg] msgs IH]; intros w ss Hw.
  - cbn [receive samples flat_map]. now rewrite app_nil_r.
  - cbn [receive samples flat_map fst snd]. unfold handle_new_message.
    destruct (parse_message msg) as [[[v c] s]|].
    + cbn [app]. change (((now, (v, c, s)) :: flat_map _ msgs))
        with ([(now, (v, c, s))] ++ samples msgs)%list.
      rewrite app_assoc. apply IH. now apply record_sample_holds.
    + cbn [app fst]. now apply IH.
Qed.

(** X15: whatever was received, the four histories are the last 300 parsed
    samples in their order of arrival; the state of charge shown is the
    smoothed one; a message that raised in [update_time_left] is kept. *)
Theorem histories_are_the_last_samples (now0 : F) (msgs : list (F * string)) :
  let w := receive (new_window now0) msgs in
  let ss := samples msgs in
  time_data w = last_n 300 (map (sample_time now0) ss)
  /\ voltage_data w = last_n 300 (map sample_voltage ss)
  /\ current_data w = last_n 300 (map sample_current ss)
  /\ soc_data w = last_n 300 (smoothed None (map sample_soc ss))
  /\ filtered_soc w = last_filtered None (smoothed None (map sample_soc ss)).
Proof.
  cbv zeta.
  assert (H0 : holds now0 (new_window now0) []).
  { unfold holds. cbn. repeat split; reflexivity. }
  apply (receive_holds now0 msgs) in H0. cbn [app] in H0.
  destruct H0 as [_ [_ Hw]]. exact Hw.
Qed.

End HistoryFacts.

Lemma readable_chain :
  chain_below readable_step b64_bus_voltage (Z.to_nat 65535) 65535
              (b64_bus_voltage 65535) = true.
Proof. vm_compute. reflexivity. Qed.

Lemma readable_current_chain :
  chain_below readable_current_step b64_shunt_current (Z.to_nat 32767) 32767
              (b64_shunt_current 32767) = true.
Proof. vm_compute. reflexivity. Qed.

Lemma unreadable_current_chain :
  chain_below unreadable_current_step b64_shunt_current (Z.to_nat 32767) 65535
              (b64_shunt_current 65535) = true.
Proof. vm_compute. reflexivity. Qed.

Lemma driver_voltage_readable (raw : Z) :
  (0 <= raw < 65536)%Z ->
  sign_clear_finite (b64_bus_voltage raw) = true
  /\ sign_clear_finite (b64_soc (b64_bus_voltage raw)) = true.
Proof.
  intros Hraw.
  assert (Hstep : forall k : Z, (0 <= k < 65535)%Z ->
            readable_step (b64_bus_voltage k) (b64_bus_voltage (k + 1)) = true).
  { intros k Hk. apply (chain_below_spec _ _ _ _ readable_chain).
    rewrite Z2Nat.id; lia. }
  destruct (Z.eq_dec raw 65535) as [->|Hne].
  - specialize (Hstep 65534%Z ltac:(lia)). unfold readable_step in Hstep.
    rewrite !andb_true_iff in Hstep. tauto.
  - specialize (Hstep raw ltac:(lia)). unfold readable_step in Hstep.
    rewrite !andb_true_iff in Hstep. tauto.
Qed.

Lemma driver_current_readable (raw : Z) :
  (0 <= raw < 65536)%Z ->
  sign_clear_finite (b64_shunt_current raw) = negb (0x7FFF <? raw)%Z.
Proof.
  intros Hraw. destruct (Z.ltb_spec 0x7FFF raw) as [Hneg|Hpos]; cbn [negb].
  - assert (Hstep : forall k : Z, (32768 <= k < 65535)%Z ->
              unreadable_current_step (b64_shunt_current k)
                                      (b64_shunt_current (k + 1)) = true).
    { intros k Hk. apply (chain_below_spec _ _ _ _ unreadable_current_chain).
      rewrite Z2Nat.id; lia. }
    destruct (Z.eq_dec raw 65535) as [->|Hne]; [vm_compute; reflexivity|].
    specialize (Hstep raw ltac:(lia)). unfold unreadable_current_step in Hstep.
    rewrite !andb_true_iff, !negb_true_iff in Hstep. tauto.
  - assert (Hstep : forall k : Z, (0 <= k < 32767)%Z ->
              readable_current_step (b64_shunt_current k)
                                    (b64_shunt_current (k + 1)) = true).
    { intros k Hk. apply (chain_below_spec _ _ _ _ readable_current_chain).
      rewrite Z2Nat.id; lia. }
    destruct (Z.eq_dec raw 32767) as [->|Hne]; [vm_compute; reflexivity|].
    specialize (Hstep raw ltac:(lia)). unfold readable_current_step in Hstep.
    rewrite !andb_true_iff in Hstep. tauto.
Qed.

Lemma b64_view_nonneg (x : float) (s : bool) (q : Q) :
  b64_view x = VFin s q -> Qle_bool 0 q = true.
Proof.
  unfold b64_view. destruct (Prim2SF x) as [s0|s0| |s0 m e]; try discriminate.
  - intros [= _ <-]. reflexivity.
  - intros [= _ <-]. apply Qle_bool_iff.
    pose proof (Z.pow_nonneg 2 e ltac:(lia)) as Hpow.
    destruct e as [|p|p]; unfold Qle; cbn [Qnum Qden inject_Z]; try lia;
      match goal with
      | |- context [match ?z with Z0 => _ | _ => _ end] => destruct z; lia
      end.
Qed.

Lemma b64_published (d : nat) (x : float) :
  sign_clear_finite x = true -> exists x' : float, published_value d x = Some x'.
Proof.
  unfold sign_clear_finite, published_value. cbn [view PyFloat_b64].
  destruct (b64_view x) as [|s|s q] eqn:E; try discriminate.
  destruct s; [discriminate|]. intros _.
  rewrite (b64_view_nonneg x false q E). eauto.
Qed.

Lemma cycle_message_parsed {F : Type} `{PyFloat F}
    (st : @monitor F) (r : @readings F) (v c v' c' s' : F) :
  voltage r = Some v ->
  invalid_reading (voltage r) = false ->
  current r = Some c ->
  published_value 3 v = Some v' ->
  published_value 6 c = Some c' ->
  published_value 1 (estimate_soc (Some v)) = Some s' ->
  sent (snd (cycle st r)) = [numeric_message v c (estimate_soc (Some v))]
  /\ parse_message (numeric_message v c (estimate_soc (Some v)))
     = Some (v', c', s').
Proof.
  intros Hv Hvalid Hc Pv Pc Ps.
  destruct (cycle_valid st r Hvalid) as [v0 [Hv0 Hcycle]].
  rewrite Hv in Hv0. injection Hv0 as <-.
  split; [|now apply numeric_message_parsed].
  rewrite Hcycle. cbn [snd sent flat_map]. rewrite valid_cycle_sent, Hc.
  now rewrite numeric_message_publish_str.
Qed.

(** X16: the message of a valid cycle whose three numbers are finite with a
    clear sign bit is parsed by the subscriber into these numbers rounded
    to 3, 6 and 1 decimals, and recorded. *)
Theorem published_reading_is_recorded {F : Type} `{PyFloat F}
    (st : @monitor F) (r : @readings F) (v c v' c' s' : F) :
  voltage r = Some v ->
  invalid_reading (voltage r) = false ->
  current r = Some c ->
  published_value 3 v = Some v' ->
  published_value 6 c = Some c' ->
  published_value 1 (estimate_soc (Some v)) = Some s' ->
  exists msg : string,
    sent (snd (cycle st r)) = [msg]
    /\ parse_message msg = Some (v', c', s')
    /\ (forall (w : @main_window F) (now : F),
          handle_new_message w now msg = record_sample w now v' c' s').
Proof.
  intros Hv Hvalid Hc Pv Pc Ps.
  destruct (cycle_message_parsed st r v c v' c' s' Hv Hvalid Hc Pv Pc Ps)
    as [Hsent Hparse].
  eexists. split; [exact Hsent|]. split; [exact Hparse|].
  intros w now. unfold handle_new_message. now rewrite Hparse.
Qed.

Lemma published_reading_is_recorded_witness :
  exists msg : string,
    sent (snd (cycle initial_monitor (steady 15.0%float (Some 0.5%float)))) = [msg]
    /\ parse_message msg = Some (15.0%float, 0.5%float, 9.8%float)
    /\ (forall (w : @main_window float) (now : float),
          handle_new_message w now msg
          = record_sample w now 15.0%float 0.5%float 9.8%float).
Proof.
  apply (published_reading_is_recorded initial_monitor
           (steady 15.0%float (Some 0.5%float)) 15.0%float 0.5%float);
    vm_compute; reflexivity.
Defined.

(** X17: a valid cycle whose current is missing, negative or not finite
    sends a message that the subscriber drops: nothing is recorded and
    nothing is raised. *)
Theorem unreadable_current_is_dropped {F : Type} `{PyFloat F}
    (st : @monitor F) (r : @readings F) :
  invalid_reading (voltage r) = false ->
  (forall c : F, current r = Some c -> sign_clear_finite c = false) ->
  exists msg : string,
    sent (snd (cycle st r)) = [msg]
    /\ parse_message (F := F) msg = None
    /\ (forall (w : @main_window F) (now : F),
          handle_new_message w now msg = (w, None)).
Proof.
  intros Hr Hcur.
  destruct (unreadable_current_no_match st r Hr Hcur) as [msg [Hsent Hno]].
  exists msg. split; [exact Hsent|].
  split; [now apply parse_message_no_match|].
  intros w now. now apply handle_new_message_unparsed, parse_message_no_match.
Qed.

Lemma unreadable_current_is_dropped_witness :
  exists msg : string,
    sent (snd (cycle initial_monitor (steady 15.0%float (Some (-0.5)%float)))) = [msg]
    /\ parse_message (F := float) msg = None
    /\ (forall (w : @main_window float) (now : float),
          handle_new_message w now msg = (w, None)).
Proof.
  apply (unreadable_current_is_dropped initial_monitor
           (steady 15.0%float (Some (-0.5)%float))).
  - vm_compute. reflexivity.
  - intros c [= <-]. vm_compute. reflexivity.
Defined.

(** X18: on the values the driver returns, a valid reading reaches the
    histories of the subscriber exactly when the shunt register value is at
    most 0x7FFF; a negative current makes the subscriber drop the
    message. *)
Theorem negative_current_is_never_plotted
    (st : @monitor float) (r : @readings float) (raw_v raw_c : Z) :
  (80 <= raw_v < 65536)%Z -> (0 <= raw_c < 65536)%Z ->
  voltage r = measure_bus_voltage (Some raw_v) ->
  current r = measure_shunt_current (Some raw_c) ->
  exists msg : string,
    sent (snd (cycle st r)) = [msg]
    /\ if (0x7FFF <? raw_c)%Z
       then parse_message (F := float) msg = None
       else exists v c s : float,
              parse_message msg = Some (v, c, s)
              /\ published_value 3 (b64_bus_voltage raw_v) = Some v
              /\ published_value 6 (b64_shunt_current raw_c) = Some c
              /\ published_value 1 (b64_soc (b64_bus_voltage raw_v)) = Some s.
Proof.
  intros Hv Hc Ev Ec.
  rewrite measure_bus_voltage_b64 in Ev. rewrite measure_shunt_current_b64 in Ec.
  assert (Hvalid : invalid_reading (voltage r) = false).
  { rewrite Ev. unfold invalid_reading. cbn [flt PyFloat_b64].
    replace (lit (F := float) (1 # 10)) with 0.1%float by (vm_compute; reflexivity).
    apply b64_leb_not_ltb. apply (b64_leb_trans _ (b64_bus_voltage 80)).
    - vm_compute. reflexivity.
    - apply driver_voltage_order_le; lia. }
  pose proof (driver_current_readable raw_c Hc) as Hsign.
  destruct (driver_voltage_readable raw_v ltac:(lia)) as [Sv Ss].
  destruct (0x7FFF <? raw_c)%Z; cbn [negb] in Hsign.
  - destruct (unreadable_current_no_match st r Hvalid) as [msg [Hsent Hno]].
    + intros c. rewrite Ec. now intros [= <-].
    + exists msg. split; [exact Hsent|]. now apply parse_message_no_match.
  - destruct (b64_published 3 _ Sv) as [v' Pv].
    destruct (b64_published 6 _ Hsign) as [c' Pc].
    destruct (b64_published 1 _ Ss) as [s' Ps].
    rewrite <- estimate_soc_b64 in Ps.
    destruct (cycle_message_parsed st r _ _ v' c' s' Ev Hvalid Ec Pv Pc Ps)
      as [Hsent Hparse].
    eexists. split; [exact Hsent|]. exists v', c', s'.
    rewrite <- estimate_soc_b64. repeat split; assumption.
Qed.

Lemma negative_current_is_never_plotted_witness :
  exists msg : string,
    sent (snd (cycle initial_monitor
                 (steady (b64_bus_voltage 12000) (Some (b64_shunt_current 65000)))))
    = [msg]
    /\ parse_message (F := float) msg = None.
Proof.
  apply (negative_current_is_never_plotted initial_monitor
           (steady (b64_bus_voltage 12000) (Some (b64_shunt_current 65000)))
           12000 65000); try lia.
  - apply measure_bus_voltage_b64.
  - apply measure_shunt_current_b64.
Defined.

(** ** The plots *)

Section PlotFacts.

Context {F : Type} `{PyFloat F}.

Lemma py_last_some (l : list F) : l <> [] -> exists x : F, py_last l = inr x.
Proof.
  intros Hl. unfold py_last. destruct (rev l) as [|x r] eqn:E; [|eauto].
  apply (f_equal (@rev F)) in E. rewrite rev_involutive in E. now cbn in E.
Qed.

Lemma nonempty_length {A : Type} (l : list A) : l <> [] <-> List.length l <> 0.
Proof. destruct l; cbn; split; congruence. Qed.

Lemma set_ranges_calls (w : @main_window F) (p : plot) (x_min x_max : F) :
  history w p <> [] ->
  exists v_min v_max : F,
    py_min (history w p) = inr v_min
    /\ py_max (history w p) = inr v_max
    /\ set_ranges w p x_min x_max =
       ([SetXRange p x_min x_max (lit (1 # 100));
         SetYRange p
           (v_min - (if py_ne v_max v_min then v_max - v_min else lit 1)
                    * lit (1 # 10))%py
           (v_max + (if py_ne v_max v_min then v_max - v_min else lit 1)
                    * lit (1 # 10))%py],
        inr tt).
Proof.
  intros Hne. unfold set_ranges.
  destruct (history w p) as [|x rest]; [congruence|].
  cbn [py_min py_max]. eexists. eexists.
  split; [reflexivity|]. split; reflexivity.
Qed.

Lemma update_plots_calls (w : @main_window F) :
  window_bounded w -> time_data w <> [] ->
  exists (last_voltage last_current last_soc x_min x_max : F)
         (v c s : list (@plot_call F)),
    py_last (voltage_data w) = inr last_voltage
    /\ py_last (current_data w) = inr last_current
    /\ py_last (soc_data w) = inr last_soc
    /\ (set_ranges w VoltagePlot x_min x_max = (v, inr tt)
        /\ set_ranges w CurrentPlot x_min x_max = (c, inr tt)
        /\ set_ranges w SocPlot x_min x_max = (s, inr tt))
    /\ update_plots w =
       ([SetData VoltagePlot (time_data w) (voltage_data w);
         SetData CurrentPlot (time_data w) (current_data w);
         SetData SocPlot (time_data w) (soc_data w);
         SetTitle VoltagePlot (plot_title VoltagePlot last_voltage);
         SetTitle CurrentPlot (plot_title CurrentPlot last_current);
         SetTitle SocPlot (plot_title SocPlot last_soc)] ++ v ++ c ++ s,
        inr tt)%list.
Proof.
  intros [_ [_ [Hv [Hc Hs]]]] Ht.
  assert (Nv : voltage_data w <> []) by (apply nonempty_length; rewrite Hv; now apply nonempty_length).
  assert (Nc : current_data w <> []) by (apply nonempty_length; rewrite Hc; now apply nonempty_length).
  assert (Ns : soc_data w <> []) by (apply nonempty_length; rewrite Hs; now apply nonempty_length).
  destruct (py_last_some _ Nv) as [lv Ev].
  destruct (py_last_some _ Nc) as [lc Ec].
  destruct (py_last_some _ Ns) as [ls Es].
  destruct (py_last_some _ Ht) as [x1 Ex1].
  unfold update_plots.
  destruct (time_data w) as [|x0 ts] eqn:Et; [congruence|].
  destruct (set_ranges_calls w VoltagePlot x0 x1 Nv) as [v0 [v1 [_ [_ Rv]]]].
  destruct (set_ranges_calls w CurrentPlot x0 x1 Nc) as [c0 [c1 [_ [_ Rc]]]].
  destruct (set_ranges_calls w SocPlot x0 x1 Ns) as [s0 [s1 [_ [_ Rs]]]].
  exists lv, lc, ls, x0, x1. eexists. eexists. eexists.
  split; [exact Ev|]. split; [exact Ec|]. split; [exact Es|].
  split; [split; [exact Rv|split; [exact Rc|exact Rs]]|].
  rewrite Ev, Ec, Es, Ex1. cbn [py_first plot_eval plot_do plot_bind app].
  rewrite Rv, Rc, Rs. reflexivity.
Qed.

(** X19: on a window that the message handler produced, [update_plots]
    raises nothing; it calls nothing while no message has been parsed, and
    then makes its twelve calls, each [setData] with as many x as y
    values. *)
Theorem update_plots_never_raises (now0 : F) (msgs : list (F * string)) :
  let w := receive (new_window now0) msgs in
  snd (update_plots w) = inr tt
  /\ List.length (fst (update_plots w))
     = match samples msgs with [] => 0 | _ :: _ => 12 end
  /\ (forall (p : plot) (x y : list F),
        In (SetData p x y) (fst (update_plots w)) ->
        x = time_data w /\ y = history w p /\ List.length x = List.length y).
Proof.
  intros w.
  assert (Hw : window_bounded w) by (apply receive_bounded, new_window_bounded).
  assert (Hh : holds now0 w (samples msgs)).
  { change (samples msgs) with ([] ++ samples msgs)%list.
    apply receive_holds. unfold holds. cbn. repeat split; reflexivity. }
  destruct Hh as [_ [_ [Ht _]]].
  destruct (samples msgs) as [|s0 ss] eqn:Es.
  - cbn in Ht. unfold update_plots. rewrite Ht. cbn.
    repeat split; try reflexivity; contradiction.
  - assert (Hne : time_data w <> []).
    { apply nonempty_length. rewrite Ht.
      destruct (Nat.le_gt_cases (List.length (map (sample_time now0) (s0 :: ss))) 300).
      - rewrite last_n_short by assumption. cbn. lia.
      - rewrite length_last_n by lia. lia. }
    destruct (update_plots_calls w Hw Hne)
      as [lv [lc [ls [x0 [x1 [v [c [s [_ [_ [_ [[Rv [Rc Rs]] Hcalls]]]]]]]]]]]].
    assert (Nv : history w VoltagePlot <> []).
    { destruct Hw as [_ [_ [Hv _]]]. apply nonempty_length. cbn [history].
      rewrite Hv. now apply nonempty_length. }
    assert (Nc : history w CurrentPlot <> []).
    { destruct Hw as [_ [_ [_ [Hc _]]]]. apply nonempty_length. cbn [history].
      rewrite Hc. now apply nonempty_length. }
    assert (Ns : history w SocPlot <> []).
    { destruct Hw as [_ [_ [_ [_ Hs]]]]. apply nonempty_length. cbn [history].
      rewrite Hs. now apply nonempty_length. }
    destruct (set_ranges_calls w VoltagePlot x0 x1 Nv) as [v0 [v1 [_ [_ Rv']]]].
    destruct (set_ranges_calls w CurrentPlot x0 x1 Nc) as [c0 [c1 [_ [_ Rc']]]].
    destruct (set_ranges_calls w SocPlot x0 x1 Ns) as [s1 [s2 [_ [_ Rs']]]].
    rewrite Rv' in Rv. rewrite Rc' in Rc. rewrite Rs' in Rs.
    injection Rv as <-. injection Rc as <-. injection Rs as <-.
    rewrite Hcalls. cbn [fst snd app List.length].
    split; [reflexivity|]. split; [reflexivity|].
    intros p x y Hin. destruct Hw as [_ [_ [Hv [Hc Hs]]]].
    cbn [In] in Hin.
    repeat (destruct Hin as [Hin|Hin];
            [try discriminate Hin; injection Hin as <- <- <-;
             cbn [history]; repeat split; congruence|]).
    contradiction.
Qed.

End PlotFacts.

(** *** The ranges, in exact arithmetic *)
Lemma py_min_Q (l : list Q) (m : Q) :
  py_min l = inr m -> forall y : Q, In y l -> (m <= y)%Q.
Proof.
  destruct l as [|x rest]; [discriminate|]. cbn [py_min]. intros [= <-].
  assert (Hfold : forall (rest : list Q) (x : Q),
            (fold_left (fun kept item => if (item <? kept)%py then item else kept)
                       rest x <= x)%Q
            /\ forall y : Q, In y rest ->
               (fold_left (fun kept item => if (item <? kept)%py then item else kept)
                          rest x <= y)%Q).
  { clear. induction rest as [|a rest IH]; intros x.
    - cbn. split; [lra|contradiction].
    - cbn [fold_left flt PyFloat_Q].
      destruct (Qle_bool x a) eqn:E; cbn [negb].
      + apply Qle_bool_iff in E. destruct (IH x) as [H1 H2].
        split; [exact H1|].
        intros y [<-|Hy]; [apply Qle_trans with x; [exact H1|exact E]|now apply H2].
      + assert (Hlt : (a < x)%Q) by now apply Qle_bool_false.
        destruct (IH a) as [H1 H2].
        split; [apply Qle_trans with a; [exact H1|now apply Qlt_le_weak]|].
        intros y [<-|Hy]; [exact H1|now apply H2]. }
  destruct (Hfold rest x) as [H1 H2].
  intros y [<-|Hy]; [exact H1|now apply H2].
Qed.

Lemma py_max_Q (l : list Q) (m : Q) :
  py_max l = inr m -> forall y : Q, In y l -> (y <= m)%Q.
Proof.
  destruct l as [|x rest]; [discriminate|]. cbn [py_max]. intros [= <-].
  assert (Hfold : forall (rest : list Q) (x : Q),
            (x <= fold_left (fun kept item => if (kept <? item)%py then item else kept)
                            rest x)%Q
            /\ forall y : Q, In y rest ->
               (y <= fold_left (fun kept item => if (kept <? item)%py then item else kept)
                               rest x)%Q).
  { clear. induction rest as [|a rest IH]; intros x.
    - cbn. split; [lra|contradiction].
    - cbn [fold_left flt PyFloat_Q].
      destruct (Qle_bool a x) eqn:E; cbn [negb].
      + apply Qle_bool_iff in E. destruct (IH x) as [H1 H2].
        split; [exact H1|].
        intros y [<-|Hy]; [apply Qle_trans with x; [exact E|exact H1]|now apply H2].
      + assert (Hlt : (x < a)%Q) by now apply Qle_bool_false.
        destruct (IH a) as [H1 H2].
        split; [apply Qle_trans with a; [now apply Qlt_le_weak|exact H1]|].
        intros y [<-|Hy]; [exact H1|now apply H2]. }
  destruct (Hfold rest x) as [H1 H2].
  intros y [<-|Hy]; [exact H1|now apply H2].
Qed.

Lemma margin_Q (lo hi : Q) :
  (lo <= hi)%Q ->
  (0 < (if py_ne hi lo then hi - lo else lit 1) * lit (1 # 10))%py%Q.
Proof.
  intros Hle. cbn [fmul fsub PyFloat_Q].
  change (lit (F := Q) (1 # 10)) with (1 # 10)%Q.
  change (lit (F := Q) 1) with 1%Q.
  unfold py_ne. cbn [fle PyFloat_Q].
  destruct (Qle_bool hi lo) eqn:E; cbn [andb negb].
  - apply Qle_bool_iff in Hle. rewrite Hle. cbn [negb]. lra.
  - apply Qle_bool_false in E. lra.
Qed.

(** X20: in exact arithmetic, the y-range that [update_plots] sets on a plot
    has a positive height and holds every value of the history of the plot
    strictly inside. *)
Theorem y_range_encloses_the_history (now0 : Q) (msgs : list (Q * string)) :
  let w := receive (new_window now0) msgs in
  Forall (fun call : @plot_call Q =>
            match call with
            | SetYRange p y_min y_max =>
                (y_min < y_max)%Q
                /\ forall y : Q, In y (history w p) -> (y_min < y < y_max)%Q
            | _ => True
            end)
         (fst (update_plots w)).
Proof.
  intros w.
  assert (Hw : window_bounded w) by (apply receive_bounded, new_window_bounded).
  destruct (time_data w) as [|t0 ts] eqn:Et.
  - unfold update_plots. rewrite Et. constructor.
  - assert (Hne : time_data w <> []) by (rewrite Et; discriminate).
    destruct (update_plots_calls w Hw Hne)
      as [lv [lc [ls [x0 [x1 [v [c [s [_ [_ [_ [[Rv [Rc Rs]] Hcalls]]]]]]]]]]]].
    assert (Hrange : forall (p : plot) (calls : list (@plot_call Q)),
              set_ranges w p x0 x1 = (calls, inr tt) ->
              Forall (fun call : @plot_call Q =>
                        match call with
                        | SetYRange p y_min y_max =>
                            (y_min < y_max)%Q
                            /\ forall y : Q, In y (history w p) -> (y_min < y < y_max)%Q
                        | _ => True
                        end) calls).
    { intros p calls Hs.
      assert (Np : history w p <> []).
      { destruct Hw as [_ [_ [Hv [Hc Hs']]]]. apply nonempty_length.
        destruct p; cbn [history]; rewrite ?Hv, ?Hc, ?Hs'; now apply nonempty_length. }
      destruct (set_ranges_calls w p x0 x1 Np) as [lo [hi [Hmin [Hmax Hcalls']]]].
      rewrite Hcalls' in Hs. injection Hs as <-.
      assert (Hle : (lo <= hi)%Q).
      { destruct (history w p) as [|h0 hs] eqn:Eh; [congruence|].
        apply Qle_trans with h0;
          [apply (py_min_Q _ _ Hmin)|apply (py_max_Q _ _ Hmax)]; now left. }
      assert (Hin : forall margin : Q,
                (0 < margin)%Q ->
                (lo - margin < hi + margin)%Q
                /\ forall y : Q, In y (history w p) ->
                   (lo - margin < y < hi + margin)%Q).
      { intros margin Hm. split; [lra|]. intros y Hy.
        pose proof (py_min_Q _ _ Hmin y Hy).
        pose proof (py_max_Q _ _ Hmax y Hy). lra. }
      constructor; [exact I|]. constructor; [|constructor].
      exact (Hin _ (margin_Q lo hi Hle)). }
    rewrite Hcalls. cbn [fst].
    repeat (apply Forall_cons; [exact I|]).
    apply Forall_app. split; [now apply (Hrange VoltagePlot)|].
    apply Forall_app. split; [now apply (Hrange CurrentPlot)|].
    now apply (Hrange SocPlot).
Qed.

(** ** The loss of the text round trip, in exact arithmetic *)

Lemma round_half_even_error (q : Q) :
  (Qabs (inject_Z (round_half_even q) - q) <= 1 # 2)%Q.
Proof.
  unfold round_half_even.
  pose proof (Qfloor_le q) as Hlo. pose proof (Qlt_floor q) as Hhi.
  rewrite inject_Z_plus in Hhi. change (inject_Z 1) with 1%Q in Hhi.
  apply Qabs_Qle_condition.
  destruct (Qcompare_spec (q - inject_Z (Qfloor q)) (1 # 2)) as [E|E|E].
  - destruct (Z.even (Qfloor q)).
    + split; lra.
    + rewrite inject_Z_plus. change (inject_Z 1) with 1%Q. split; lra.
  - split; lra.
  - rewrite inject_Z_plus. change (inject_Z 1) with 1%Q. split; lra.
Qed.

(** X21: in exact arithmetic, the number that the subscriber reads back
    differs from the number published by at most half a unit of the last
    decimal printed. *)
Theorem text_round_trip_error (d : nat) (x x' : Q) :
  published_value d x = Some x' ->
  (Qabs (x' - x) * inject_Z (10 ^ Z.of_nat d) <= 1 # 2)%Q.
Proof.
  unfold published_value. cbn [view unview PyFloat_Q]. unfold Q_view, Q_unview.
  destruct (Qnum x <? 0)%Z eqn:Esign; [discriminate|].
  apply Z.ltb_ge in Esign.
  assert (Hx : Qabs x = x).
  { destruct x as [n dn]. cbn in Esign. cbn. now rewrite Z.abs_eq. }
  rewrite Hx.
  destruct (Qle_bool 0 x); [|discriminate]. intros [= <-].
  set (T := (10 ^ Z.of_nat d)%Z).
  assert (HT : (0 < T)%Z) by (apply Z.pow_pos_nonneg; lia).
  set (r := round_half_even (x * inject_Z T)).
  assert (Hr : ((r # Z.to_pos T) * inject_Z T == inject_Z r)%Q).
  { unfold Qeq, Qmult, inject_Z. cbn [Qnum Qden].
    rewrite Pos.mul_1_r, Z2Pos.id by exact HT. ring. }
  assert (HTq : (0 <= inject_Z T)%Q) by (unfold Qle; cbn; lia).
  rewrite <- (Qabs_pos (inject_Z T) HTq) at 1.
  rewrite <- Qabs_Qmult.
  assert (E : (((r # Z.to_pos T) - x) * inject_Z T
               == inject_Z r - x * inject_Z T)%Q)
    by (rewrite <- Hr; ring).
  rewrite E. apply round_half_even_error.
Qed.

Lemma text_round_trip_error_witness :
  (Qabs ((15826 # 1000) - (158255 # 10000)) * inject_Z (10 ^ Z.of_nat 3) <= 1 # 2)%Q.
Proof.
  apply (text_round_trip_error 3 (158255 # 10000) (15826 # 1000)).
  vm_compute. reflexivity.
Defined.
